(** * EduPath AI (src/App.tsx): the live voice session, the wizard gate and
    the roadmap request, as a shallow embedding.

    The React component [App] keeps its state in [useState] cells and reacts
    to user clicks and to callbacks of the Live API connection, of
    [getUserMedia] and of the audio processor.  The embedding keeps the cells
    in a record, the effects on the outside world (connections requested,
    [close()] calls, capture pipelines, payloads sent, console output) in a
    second record, and turns every handler into a function on the pair. *)

From Stdlib Require Import ZArith QArith List String Ascii Bool Lia.
From Stdlib Require Import SpecFloat.
From Stdlib Require Import Lqa Qabs.
Import ListNotations.

Set Implicit Arguments.
Set Warnings "-register-all,-abstract-large-number".

(* ================================================================== *)
(** ** Audio: Float32 samples to 16-bit PCM, bytes and base64          *)
(* ================================================================== *)

Module Audio.

Local Open Scope Z_scope.

(** A JavaScript number read from a [Float32Array]: NaN, an infinity, or a
    finite value, kept as the exact rational it denotes.  [Math.min] and
    [Math.max] select one of their arguments, and the one rounding step of
    line 287, the binary64 product with [0x7FFF], is exact on binary32
    inputs (see [binary64_product_is_exact] below, stated on the Standard
    Library's IEEE 754 specification [SFmul]). *)
Inductive number : Type :=
| NaN : number
| Infinity (negative : bool) : number
| Finite (q : Q) : number.

Definition Qltb (a b : Q) : bool := negb (Qle_bool b a).

(** [Math.min(a, b)] and [Math.max(a, b)]: NaN if either argument is NaN. *)
Definition Math_min (a b : number) : number :=
  match a, b with
  | NaN, _ | _, NaN => NaN
  | Infinity true, _ | _, Infinity true => Infinity true
  | Infinity false, y => y
  | x, Infinity false => x
  | Finite x, Finite y => if Qltb y x then Finite y else Finite x
  end.

Definition Math_max (a b : number) : number :=
  match a, b with
  | NaN, _ | _, NaN => NaN
  | Infinity false, _ | _, Infinity false => Infinity false
  | Infinity true, y => y
  | x, Infinity true => x
  | Finite x, Finite y => if Qltb x y then Finite y else Finite x
  end.

(** [a * b] for a finite non-zero right operand (here the constant
    [0x7FFF]). *)
Definition times (a : number) (k : Q) : number :=
  match a with
  | NaN => NaN
  | Infinity s => Infinity (if Qltb k 0%Q then negb s else s)
  | Finite x => Finite (x * k)%Q
  end.

(** Truncation toward zero of a rational. *)
Definition truncate (q : Q) : Z := Z.quot (Qnum q) (Zpos (Qden q)).

(** Storing a number into an [Int16Array] element (ECMAScript ToInt16):
    NaN and the infinities become 0, a finite value is truncated toward zero
    and reduced modulo 2^16 into [-32768, 32767]. *)
Definition ToInt16 (x : number) : Z :=
  match x with
  | NaN | Infinity _ => 0
  | Finite q => (truncate q + 32768) mod 65536 - 32768
  end.

Definition hex_7FFF : Q := (32767 # 1)%Q.

Definition clamp (x : number) : number :=
  Math_max (Finite (-1 # 1)%Q) (Math_min (Finite 1%Q) x).

(** The number a binary floating-point datum denotes: sign, significand
    [m] and exponent [e] stand for [+-m * 2^e]. *)
Definition of_spec_float (x : spec_float) : number :=
  match x with
  | S754_nan => NaN
  | S754_infinity s => Infinity s
  | S754_zero _ => Finite 0%Q
  | S754_finite s m e =>
      Finite (inject_Z (if s then Z.neg m else Z.pos m) * 2 ^ e)%Q
  end.

(** The data a [Float32Array] element can hold: a finite binary32 value has
    a significand below 2^24 and an exponent between -149 and 104. *)
Definition is_binary32 (x : spec_float) : bool :=
  match x with
  | S754_finite _ m e => (Z.pos m <? 2 ^ 24) && (-149 <=? e) && (e <=? 104)
  | _ => true
  end.

(** [0x7FFF] as a binary64 datum. *)
Definition binary64_7FFF : spec_float := S754_finite false 32767 0.

(** Line 287: [pcmData[i] = Math.max(-1, Math.min(1, inputData[i])) * 0x7FFF]. *)
Definition pcm_sample (x : number) : Z := ToInt16 (times (clamp x) hex_7FFF).

(** Lines 285-288: the loop fills an [Int16Array] of the input's length. *)
Definition pcm_block (inputData : list number) : list Z :=
  map pcm_sample inputData.

(** [new Uint8Array(pcmData.buffer)]: the two bytes of each 16-bit element,
    low byte first (little-endian platforms). *)
Definition int16_bytes (v : Z) : list Z :=
  let u := v mod 65536 in [u mod 256; u / 256].

Definition buffer_bytes (pcmData : list Z) : list Z :=
  flat_map int16_bytes pcmData.

(** [btoa]: base64 over a string of byte-valued characters. *)
Definition b64_alphabet : string :=
  "ABCDEFGHIJKLMNOPQRSTUVWXYZabcdefghijklmnopqrstuvwxyz0123456789+/".

Definition b64_char (n : Z) : ascii :=
  match String.get (Z.to_nat n) b64_alphabet with
  | Some c => c
  | None => "="%char
  end.

Fixpoint btoa (bytes : list Z) : string :=
  match bytes with
  | [] => EmptyString
  | [a] =>
      String (b64_char (a / 4))
        (String (b64_char ((a mod 4) * 16)) "==")
  | [a; b] =>
      String (b64_char (a / 4))
        (String (b64_char ((a mod 4) * 16 + b / 16))
           (String (b64_char ((b mod 16) * 4)) "="))
  | a :: b :: c :: rest =>
      String (b64_char (a / 4))
        (String (b64_char ((a mod 4) * 16 + b / 16))
           (String (b64_char ((b mod 16) * 4 + c / 64))
              (String (b64_char (c mod 64)) (btoa rest))))
  end.

(** The element ranges of [Uint8Array] and [Int16Array]. *)
Definition is_byte (b : Z) : Prop := 0 <= b < 256.

Definition is_int16 (v : Z) : Prop := -32768 <= v <= 32767.

(** The argument of [sendRealtimeInput]: [{ media: { data, mimeType } }]. *)
Record Media : Type := { data : string; mimeType : string }.

(** Lines 284-290: what one [onaudioprocess] call hands to
    [sendRealtimeInput]. *)
Definition encode_block (inputData : list number) : Media :=
  {| data := btoa (buffer_bytes (pcm_block inputData));
     mimeType := "audio/pcm;rate=16000" |}.

End Audio.

(* ================================================================== *)
(** ** JSON values and the response schema of the roadmap request      *)
(* ================================================================== *)

Module Json.

(** What [JSON.parse] can return. *)
Inductive json : Type :=
| JNull : json
| JBool (b : bool) : json
| JNumber (q : Q) : json
| JString (s : string) : json
| JArray (items : list json) : json
| JObject (fields : list (string * json)) : json.

(** The subset of the [Type.*] schema language used at lines 161-198. *)
Inductive Schema : Type :=
| TString : Schema
| TNumber : Schema
| TArray (items : Schema) : Schema
| TObject (properties : list (string * Schema)) (required : list string) : Schema.

Fixpoint lookup {A : Type} (k : string) (l : list (string * A)) : option A :=
  match l with
  | [] => None
  | (k', v) :: rest => if String.eqb k k' then Some v else lookup k rest
  end.

Definition has_key {A : Type} (k : string) (l : list (string * A)) : bool :=
  match lookup k l with Some _ => true | None => false end.

(** A value conforms to a schema: the types agree, every required property
    is present, and every declared property that is present conforms. *)
Fixpoint conforms (v : json) (s : Schema) {struct v} : bool :=
  match v, s with
  | JString _, TString => true
  | JNumber _, TNumber => true
  | JArray items, TArray it => forallb (fun x => conforms x it) items
  | JObject fields, TObject props req =>
      forallb (fun k => has_key k fields) req
      && forallb (fun kv => let '(k, x) := kv in
                            match lookup k props with
                            | Some sk => conforms x sk
                            | None => true
                            end) fields
  | _, _ => false
  end.

End Json.

(* ================================================================== *)
(** ** The component: state cells, outside world, handlers             *)
(* ================================================================== *)

Module App.

Import Audio Json.
Local Open Scope string_scope.
Local Open Scope list_scope.

(** *** Types (lines 51-78) *)

Inductive Step : Type :=
| Welcome | Login | Dashboard | BasicInfo | Interests | Discovery
| Generating | Results.

Definition Step_eqb (a b : Step) : bool :=
  match a, b with
  | Welcome, Welcome | Login, Login | Dashboard, Dashboard
  | BasicInfo, BasicInfo | Interests, Interests | Discovery, Discovery
  | Generating, Generating | Results, Results => true
  | _, _ => false
  end.

Record UserData : Type := {
  studyTime : string;
  shortTermGoal : string;
  longTermGoal : string;
  language : string;
  interests : list string;
  discoveryAnswers : option (list (string * string))
}.

(** *** Constants (lines 81-114) *)

Record Question : Type := {
  id : string; question : string; options : list string
}.

Definition DISCOVERY_QUESTIONS : list Question :=
  [ {| id := "q1";
       question := "Do you prefer fast-paced technology roles or stable government jobs?";
       options := ["Technology Sector"; "Government Sector"; "Open to both"; "Not sure yet"] |};
    {| id := "q2";
       question := "Do you enjoy coding or preparing for competitive exams?";
       options := ["I love coding"; "I prefer competitive exams"; "I like both"; "Neither"] |};
    {| id := "q3";
       question := "Are you interested in physical service roles like Defence?";
       options := ["Yes, very much"; "No, I prefer desk jobs"; "Maybe"; "Only if it involves tech"] |};
    {| id := "q4";
       question := "Do you prefer structured syllabus-based exams?";
       options := ["Yes, I like structure"; "No, I like project-based learning";
                   "I can adapt to both"; "I prefer creative work"] |};
    {| id := "q5";
       question := "Are you comfortable with mathematics and reasoning?";
       options := ["Yes, it's my strength"; "I find it challenging"; "I'm okay with it";
                   "I prefer visual/creative tasks"] |} ].

Definition COMMON_INTERESTS : list string :=
  [ "Frontend Dev"; "Backend Dev"; "Full-Stack Dev";
    "Banking (IBPS/SBI)"; "Railway (RRB)"; "Defence (NDA/CDS)";
    "UI/UX Design"; "Data Management"; "Public Service"; "Cybersecurity";
    "Quantitative Aptitude"; "Reasoning"; "Physical Fitness"; "General Awareness" ].

Definition STUDY_TIMES : list string := ["30 mins"; "1 hour"; "2 hours"; "4+ hours"].

Definition LANGUAGES : list string :=
  ["English"; "Spanish"; "French"; "German"; "Hindi"; "Chinese"].

(** [DISCOVERY_QUESTIONS[i]]: [undefined] outside the table. *)
Definition questionAt (i : Z) : option Question :=
  if (i <? 0)%Z then None else nth_error DISCOVERY_QUESTIONS (Z.to_nat i).

(** JavaScript truthiness of a possibly undefined string. *)
Definition truthy (s : option string) : bool :=
  match s with
  | Some (String _ _) => true
  | _ => false
  end.

(** A settled promise. *)
Inductive Outcome (A : Type) : Type :=
| Fulfilled (value : A) : Outcome A
| Rejected (reason : string) : Outcome A.

Arguments Fulfilled {A} value.
Arguments Rejected {A} reason.

(** *** Gemini service (lines 116-204) *)

Module GenAI.

Record GenerateContentParameters : Type := {
  model : string;
  contents : string;
  tools : list string;
  responseMimeType : string;
  responseSchema : Schema
}.

Record GenerateContentResponse : Type := { text : option string }.

(** Lines 174-182. *)
Definition roadmapSchema : Schema :=
  TObject [("day30", TString); ("day60", TString); ("day90", TString)]
          ["day30"; "day60"; "day90"].

(** Lines 183-194. *)
Definition learningResourcesSchema : Schema :=
  TArray (TObject [("name", TString); ("url", TString); ("description", TString)]
                  ["name"; "url"; "description"]).

(** Lines 161-198. *)
Definition careerSchema : Schema :=
  TArray
    (TObject
       [ ("title", TString);
         ("matchScore", TNumber);
         ("whyFits", TString);
         ("technicalSkills", TArray TString);
         ("examSubjects", TArray TString);
         ("physicalEligibility", TString);
         ("softSkills", TArray TString);
         ("competitionLevel", TString);
         ("roadmap", roadmapSchema);
         ("learningResources", learningResourcesSchema);
         ("jobReadinessTime", TString) ]
       [ "title"; "matchScore"; "whyFits"; "softSkills"; "roadmap";
         "learningResources"; "jobReadinessTime" ]).

Section Service.

(** The host's [JSON.parse]; [None] stands for the [SyntaxError] it throws. *)
Variable JSON_parse : string -> option json.

(** The template literal of lines 120-153, a function of the profile. *)
Variable prompt : UserData -> string.

(** Lines 155-201: the one request the function issues. *)
Definition roadmapRequest (userData : UserData) : GenerateContentParameters :=
  {| model := "gemini-3-flash-preview";
     contents := prompt userData;
     tools := ["googleSearch"];
     responseMimeType := "application/json";
     responseSchema := careerSchema |}.

(** Line 203: [JSON.parse(response.text || "[]")]. *)
Definition parseResponse (response : GenerateContentResponse) : Outcome json :=
  let source := match text response with
                | Some t => if truthy (Some t) then t else "[]"
                | None => "[]"
                end in
  match JSON_parse source with
  | Some v => Fulfilled v
  | None => Rejected "SyntaxError"
  end.

(** Lines 119-204.  [generateContent] is the backend: it receives the
    request and its promise settles with a response or rejects. *)
Definition generateCareerRoadmap
    (generateContent : GenerateContentParameters -> Outcome GenerateContentResponse)
    (userData : UserData) : Outcome json :=
  match generateContent (roadmapRequest userData) with
  | Fulfilled response => parseResponse response
  | Rejected reason => Rejected reason
  end.

End Service.

(** A record carries the three milestones of its roadmap as strings. *)
Definition hasMilestones (record : json) : Prop :=
  exists fields roadmap day30 day60 day90,
    record = JObject fields
    /\ lookup "roadmap" fields = Some (JObject roadmap)
    /\ lookup "day30" roadmap = Some (JString day30)
    /\ lookup "day60" roadmap = Some (JString day60)
    /\ lookup "day90" roadmap = Some (JString day90).

(** The values of [JSON.parse] on three literal texts; every other text is
    left undecided here and counts as not parsed. *)
Definition JSON_parse_literals (source : string) : option json :=
  if String.eqb source "[]" then Some (JArray [])
  else if String.eqb source "{}" then Some (JObject [])
  else if String.eqb source "[{}]" then Some (JArray [JObject []])
  else None.

End GenAI.

(** *** Live API messages (line 295) *)

Record Part : Type := { text : option string }.
Record ModelTurn : Type := { parts : option (list Part) }.
Record ServerContent : Type := { modelTurn : option ModelTurn }.
Record LiveServerMessage : Type := { serverContent : option ServerContent }.

(** [message.serverContent?.modelTurn?.parts?.[0]?.text] *)
Definition first_part_text (message : LiveServerMessage) : option string :=
  match serverContent message with
  | None => None
  | Some sc =>
      match modelTurn sc with
      | None => None
      | Some mt =>
          match parts mt with
          | Some (p :: _) => text p
          | _ => None
          end
      end
  end.

(** *** The [useState] cells (lines 252-265) *)

Record Cells : Type := {
  step : Step;
  userData : UserData;
  discoveryIndex : Z;                   (* a JavaScript number: it can leave 0..4 *)
  results : json;
  isGenerating : bool;
  isLiveActive : bool;
  liveTranscript : string;
  session : option nat
}.

(** *** The world outside the component

    Connections are numbered in the order [ai.live.connect] is called; the
    [LiveSession] object of connection [k] is [k].  A capture is what the
    [getUserMedia] continuation of lines 277-292 builds: the microphone
    stream, the [AudioContext] and the script processor, whose
    [onaudioprocess] sends to the [liveSession] of its closure.  That
    [const liveSession] of line 270 is set when the connect promise is
    fulfilled; until then, and for ever after a rejection, reading it
    throws. *)

Record World : Type := {
  connects : nat;                       (* [ai.live.connect] calls so far *)
  connecting : list nat;                (* their promises not settled yet *)
  closeCalls : list nat;                (* [close()] calls, by session *)
  micRequests : list nat;               (* pending [getUserMedia] promises *)
  captures : list nat;                  (* open captures, by target session *)
  sent : list (nat * Media);            (* [sendRealtimeInput] calls, in order *)
  console : list string;                (* [console.error] calls, in order *)
  generateCalls : list UserData;        (* [generateCareerRoadmap] calls *)
  generatePending : list nat;           (* their promises not settled yet *)
  liveSessions : list nat               (* connects fulfilled: [liveSession] set *)
}.

Record State : Type := { cells : Cells; world : World }.

Definition initialUserData : UserData :=
  {| studyTime := "2 hours"; shortTermGoal := EmptyString;
     longTermGoal := EmptyString; language := "English";
     interests := []; discoveryAnswers := None |}.

Definition initialCells : Cells :=
  {| step := Welcome; userData := initialUserData; discoveryIndex := 0%Z;
     results := JArray []; isGenerating := false; isLiveActive := false;
     liveTranscript := EmptyString; session := None |}.

Definition emptyWorld : World :=
  {| connects := 0; connecting := []; closeCalls := []; micRequests := [];
     captures := []; sent := []; console := []; generateCalls := [];
     generatePending := []; liveSessions := [] |}.

Definition initialState : State := {| cells := initialCells; world := emptyWorld |}.

(** *** State setters *)

Definition onCells (f : Cells -> Cells) (s : State) : State :=
  {| cells := f (cells s); world := world s |}.

Definition onWorld (f : World -> World) (s : State) : State :=
  {| cells := cells s; world := f (world s) |}.

Definition setStep (v : Step) : State -> State :=
  onCells (fun c =>
    {| step := v; userData := userData c; discoveryIndex := discoveryIndex c;
       results := results c; isGenerating := isGenerating c;
       isLiveActive := isLiveActive c; liveTranscript := liveTranscript c;
       session := session c |}).

Definition setUserData (f : UserData -> UserData) : State -> State :=
  onCells (fun c =>
    {| step := step c; userData := f (userData c);
       discoveryIndex := discoveryIndex c;
       results := results c; isGenerating := isGenerating c;
       isLiveActive := isLiveActive c; liveTranscript := liveTranscript c;
       session := session c |}).

Definition setDiscoveryIndex (f : Z -> Z) : State -> State :=
  onCells (fun c =>
    {| step := step c; userData := userData c;
       discoveryIndex := f (discoveryIndex c);
       results := results c; isGenerating := isGenerating c;
       isLiveActive := isLiveActive c; liveTranscript := liveTranscript c;
       session := session c |}).

Definition setResults (v : json) : State -> State :=
  onCells (fun c =>
    {| step := step c; userData := userData c; discoveryIndex := discoveryIndex c;
       results := v; isGenerating := isGenerating c;
       isLiveActive := isLiveActive c; liveTranscript := liveTranscript c;
       session := session c |}).

Definition setIsGenerating (v : bool) : State -> State :=
  onCells (fun c =>
    {| step := step c; userData := userData c; discoveryIndex := discoveryIndex c;
       results := results c; isGenerating := v;
       isLiveActive := isLiveActive c; liveTranscript := liveTranscript c;
       session := session c |}).

Definition setIsLiveActive (v : bool) : State -> State :=
  onCells (fun c =>
    {| step := step c; userData := userData c; discoveryIndex := discoveryIndex c;
       results := results c; isGenerating := isGenerating c;
       isLiveActive := v; liveTranscript := liveTranscript c;
       session := session c |}).

Definition setLiveTranscript (f : string -> string) : State -> State :=
  onCells (fun c =>
    {| step := step c; userData := userData c; discoveryIndex := discoveryIndex c;
       results := results c; isGenerating := isGenerating c;
       isLiveActive := isLiveActive c; liveTranscript := f (liveTranscript c);
       session := session c |}).

Definition setSession (v : option nat) : State -> State :=
  onCells (fun c =>
    {| step := step c; userData := userData c; discoveryIndex := discoveryIndex c;
       results := results c; isGenerating := isGenerating c;
       isLiveActive := isLiveActive c; liveTranscript := liveTranscript c;
       session := v |}).

(** *** Effects on the world *)

Fixpoint remove1 (k : nat) (l : list nat) : list nat :=
  match l with
  | [] => []
  | x :: rest => if Nat.eqb k x then rest else x :: remove1 k rest
  end.

Definition mem (k : nat) (l : list nat) : bool := existsb (Nat.eqb k) l.

Definition mem_string (k : string) (l : list string) : bool :=
  existsb (String.eqb k) l.

(** [ai.live.connect({...})]: a new connection is requested. *)
Definition live_connect : State -> State :=
  onWorld (fun w =>
    {| connects := S (connects w); connecting := connecting w ++ [connects w];
       closeCalls := closeCalls w; micRequests := micRequests w;
       captures := captures w; sent := sent w; console := console w;
       generateCalls := generateCalls w; generatePending := generatePending w;
       liveSessions := liveSessions w |}).

(** The promise of connection [k] settles. *)
Definition connect_settled (k : nat) : State -> State :=
  onWorld (fun w =>
    {| connects := connects w; connecting := remove1 k (connecting w);
       closeCalls := closeCalls w; micRequests := micRequests w;
       captures := captures w; sent := sent w; console := console w;
       generateCalls := generateCalls w; generatePending := generatePending w;
       liveSessions := liveSessions w |}).

(** The promise of connection [k] is fulfilled: line 270 initialises
    [liveSession]. *)
Definition connect_fulfilled (k : nat) : State -> State :=
  onWorld (fun w =>
    {| connects := connects w; connecting := remove1 k (connecting w);
       closeCalls := closeCalls w; micRequests := micRequests w;
       captures := captures w; sent := sent w; console := console w;
       generateCalls := generateCalls w; generatePending := generatePending w;
       liveSessions := liveSessions w ++ [k] |}).

(** [k.close()] *)
Definition close (k : nat) : State -> State :=
  onWorld (fun w =>
    {| connects := connects w; connecting := connecting w;
       closeCalls := closeCalls w ++ [k]; micRequests := micRequests w;
       captures := captures w; sent := sent w; console := console w;
       generateCalls := generateCalls w; generatePending := generatePending w;
       liveSessions := liveSessions w |}).

(** [navigator.mediaDevices.getUserMedia({ audio: true })], called from the
    [onopen] of connection [k]. *)
Definition getUserMedia (k : nat) : State -> State :=
  onWorld (fun w =>
    {| connects := connects w; connecting := connecting w;
       closeCalls := closeCalls w; micRequests := micRequests w ++ [k];
       captures := captures w; sent := sent w; console := console w;
       generateCalls := generateCalls w; generatePending := generatePending w;
       liveSessions := liveSessions w |}).

(** Lines 277-292, the [then] continuation: the stream is open, the
    [AudioContext] and the processor exist and are wired. *)
Definition startCapture (k : nat) : State -> State :=
  onWorld (fun w =>
    {| connects := connects w; connecting := connecting w;
       closeCalls := closeCalls w; micRequests := remove1 k (micRequests w);
       captures := captures w ++ [k]; sent := sent w; console := console w;
       generateCalls := generateCalls w; generatePending := generatePending w;
       liveSessions := liveSessions w |}).

(** The [getUserMedia] promise rejects; the source attaches no handler. *)
Definition micDenied (k : nat) : State -> State :=
  onWorld (fun w =>
    {| connects := connects w; connecting := connecting w;
       closeCalls := closeCalls w; micRequests := remove1 k (micRequests w);
       captures := captures w; sent := sent w; console := console w;
       generateCalls := generateCalls w; generatePending := generatePending w;
       liveSessions := liveSessions w |}).

(** [k.sendRealtimeInput({ media })] *)
Definition sendRealtimeInput (k : nat) (media : Media) : State -> State :=
  onWorld (fun w =>
    {| connects := connects w; connecting := connecting w;
       closeCalls := closeCalls w; micRequests := micRequests w;
       captures := captures w; sent := sent w ++ [(k, media)];
       console := console w;
       generateCalls := generateCalls w; generatePending := generatePending w;
       liveSessions := liveSessions w |}).

Definition console_error (message : string) : State -> State :=
  onWorld (fun w =>
    {| connects := connects w; connecting := connecting w;
       closeCalls := closeCalls w; micRequests := micRequests w;
       captures := captures w; sent := sent w;
       console := console w ++ [message];
       generateCalls := generateCalls w; generatePending := generatePending w;
       liveSessions := liveSessions w |}).

(** [generateCareerRoadmap(userData)] is called. *)
Definition callGenerate (profile : UserData) : State -> State :=
  onWorld (fun w =>
    {| connects := connects w; connecting := connecting w;
       closeCalls := closeCalls w; micRequests := micRequests w;
       captures := captures w; sent := sent w; console := console w;
       generateCalls := generateCalls w ++ [profile];
       generatePending := generatePending w ++ [List.length (generateCalls w)];
       liveSessions := liveSessions w |}).

Definition generate_settled (i : nat) : State -> State :=
  onWorld (fun w =>
    {| connects := connects w; connecting := connecting w;
       closeCalls := closeCalls w; micRequests := micRequests w;
       captures := captures w; sent := sent w; console := console w;
       generateCalls := generateCalls w;
       generatePending := remove1 i (generatePending w);
       liveSessions := liveSessions w |}).

(** *** Live API logic (lines 267-322) *)

Definition newline : string := String (ascii_of_nat 10) EmptyString.

Definition banner : string := "Connected! Start speaking...".

(** Line 270: [startLiveSession] up to its [await]. *)
Definition startLiveSession (s : State) : State := live_connect s.

(** Line 313: the [await] returned the session of connection [k]. *)
Definition connectResolved (k : nat) (s : State) : State :=
  setSession (Some k) (connect_fulfilled k s).

(** Lines 314-316: the [await] threw. *)
Definition connectRejected (k : nat) (s : State) : State :=
  console_error "Failed to connect to Live API:" (connect_settled k s).

(** Lines 273-293: [onopen] of connection [k]. *)
Definition onopen (k : nat) (s : State) : State :=
  getUserMedia k
    (setLiveTranscript (fun _ => banner)
       (setIsLiveActive true s)).

(** Lines 283-291: [processor.onaudioprocess] of a capture whose closure
    holds the [liveSession] of connection [k].  The block is converted and
    encoded, then [liveSession] is read: if the connect promise of [k] has
    not been fulfilled the read throws a ReferenceError and nothing is
    sent. *)
Definition onaudioprocess (k : nat) (inputData : list number) (s : State) : State :=
  if mem k (liveSessions (world s))
  then sendRealtimeInput k (encode_block inputData) s
  else s.

(** Lines 294-299: [onmessage]. *)
Definition onmessage (message : LiveServerMessage) (s : State) : State :=
  if truthy (first_part_text message) then
    match first_part_text message with
    | Some t => setLiveTranscript (fun prev => (prev ++ newline ++ t)%string) s
    | None => s
    end
  else s.

(** Lines 300-303: [onclose]. *)
Definition onclose (s : State) : State :=
  setSession None (setIsLiveActive false s).

(** Lines 304-307: [onerror]. *)
Definition onerror (s : State) : State :=
  setIsLiveActive false (console_error "Live API Error:" s).

(** Lines 319-322: [stopLiveSession]; [session?.close()] does nothing when
    the cell holds [null]. *)
Definition stopLiveSession (s : State) : State :=
  setIsLiveActive false
    (match session (cells s) with
     | Some k => close k s
     | None => s
     end).

(** Line 402: [onClick={isLiveActive ? stopLiveSession : startLiveSession}]. *)
Definition micToggle (s : State) : State :=
  if isLiveActive (cells s) then stopLiveSession s else startLiveSession s.

(** *** Wizard logic (lines 324-386)

    A handler is a closure of the render that built it: what it reads of
    [step], [userData] and [discoveryIndex] is what the cells held at that
    render, [rendered]; what it sets, it sets in the cells as they are when
    it runs, and a functional update [prev => ...] starts from them.  The
    handlers of the page on screen are those of the current render. *)

(** Lines 350-352: [handleGenerate] up to its [await]; [profile] is the
    [userData] of the render whose closure the handler belongs to. *)
Definition handleGenerate (profile : UserData) (s : State) : State :=
  callGenerate profile (setIsGenerating true (setStep Generating s)).

(** Lines 354-356 and 360-362: call [i] returned [data]. *)
Definition generateFulfilled (i : nat) (data : json) (s : State) : State :=
  setIsGenerating false
    (setStep Results (setResults data (generate_settled i s))).

(** Lines 357-362: call [i] threw. *)
Definition generateRejected (i : nat) (s : State) : State :=
  setIsGenerating false
    (setStep Interests
       (console_error "Failed to generate roadmap:" (generate_settled i s))).

(** Lines 324-336, as built by the render [rendered]. *)
Definition handleNextOf (rendered : Cells) (s : State) : State :=
  match step rendered with
  | Welcome => setStep Login s
  | Login => setStep Dashboard s
  | Dashboard => setStep BasicInfo s
  | BasicInfo => setStep Interests s
  | Interests =>
      match interests (userData rendered) with
      | _ :: _ => handleGenerate (userData rendered) s
      | [] => setStep Discovery s
      end
  | _ => s
  end.

Definition handleNext (s : State) : State := handleNextOf (cells s) s.

(** Lines 338-348, as built by the render [rendered]. *)
Definition handleBackOf (rendered : Cells) (s : State) : State :=
  match step rendered with
  | Login => setStep Welcome s
  | Dashboard => setStep Login s
  | BasicInfo => setStep Dashboard s
  | Interests => setStep BasicInfo s
  | Discovery =>
      if (0 <? discoveryIndex rendered)%Z
      then setDiscoveryIndex Z.pred s
      else setStep Interests s
  | Results => setStep Interests s
  | _ => s
  end.

Definition handleBack (s : State) : State := handleBackOf (cells s) s.

(** Lines 365-372. *)
Definition toggleInterest (interest : string) : State -> State :=
  setUserData (fun prev =>
    {| studyTime := studyTime prev; shortTermGoal := shortTermGoal prev;
       longTermGoal := longTermGoal prev; language := language prev;
       interests :=
         if mem_string interest (interests prev)
         then filter (fun i => negb (String.eqb i interest)) (interests prev)
         else interests prev ++ [interest];
       discoveryAnswers := discoveryAnswers prev |}).

(** [{ ...answers, [qId]: answer }]: an existing key keeps its place. *)
Fixpoint assign (k v : string) (o : list (string * string)) : list (string * string) :=
  match o with
  | [] => [(k, v)]
  | (k', v') :: rest =>
      if String.eqb k k' then (k, v) :: rest else (k', v') :: assign k v rest
  end.

(** Lines 374-386, as built by the render [rendered].  Reading [.id] of an
    index outside the table would throw; the handler then changes
    nothing. *)
Definition handleDiscoveryAnswerOf (rendered : Cells) (answer : string) (s : State)
  : State :=
  match questionAt (discoveryIndex rendered) with
  | None => s
  | Some q =>
      let s1 :=
        setUserData (fun prev =>
          {| studyTime := studyTime prev; shortTermGoal := shortTermGoal prev;
             longTermGoal := longTermGoal prev; language := language prev;
             interests := interests prev;
             discoveryAnswers :=
               Some (assign (id q) answer
                       (match discoveryAnswers prev with
                        | Some o => o
                        | None => []
                        end)) |}) s in
      if (discoveryIndex rendered <? Z.of_nat (List.length DISCOVERY_QUESTIONS) - 1)%Z
      then setDiscoveryIndex Z.succ s1
      else handleGenerate (userData rendered) s1
  end.

Definition handleDiscoveryAnswer (answer : string) (s : State) : State :=
  handleDiscoveryAnswerOf (cells s) answer s.

Definition setStudyTime (time : string) : State -> State :=
  setUserData (fun prev =>
    {| studyTime := time; shortTermGoal := shortTermGoal prev;
       longTermGoal := longTermGoal prev; language := language prev;
       interests := interests prev; discoveryAnswers := discoveryAnswers prev |}).

Definition setShortTermGoal (v : string) : State -> State :=
  setUserData (fun prev =>
    {| studyTime := studyTime prev; shortTermGoal := v;
       longTermGoal := longTermGoal prev; language := language prev;
       interests := interests prev; discoveryAnswers := discoveryAnswers prev |}).

Definition setLongTermGoal (v : string) : State -> State :=
  setUserData (fun prev =>
    {| studyTime := studyTime prev; shortTermGoal := shortTermGoal prev;
       longTermGoal := v; language := language prev;
       interests := interests prev; discoveryAnswers := discoveryAnswers prev |}).

Definition setLanguage (v : string) : State -> State :=
  setUserData (fun prev =>
    {| studyTime := studyTime prev; shortTermGoal := shortTermGoal prev;
       longTermGoal := longTermGoal prev; language := v;
       interests := interests prev; discoveryAnswers := discoveryAnswers prev |}).

(** *** Pages that are leaving (line 428)

    The pages sit under [<AnimatePresence mode="wait">].  When [step]
    changes, a page with an [exit] animation stays mounted until the
    animation has ended, as the elements of the last render in which it was
    the page of the step.  Its elements still take clicks, and a click runs
    the handler those elements hold: the closure of that render. *)

(** The pages with an [exit] prop (lines 434, 510, 566, 662, 714, 792);
    'generating' and 'results' have none and are removed at once. *)
Definition hasExit (page : Step) : bool :=
  match page with
  | Generating | Results => false
  | _ => true
  end.

(** The elements of those pages. *)
Inductive PageClick : Type :=
| PageNext                                    (* lines 455, 537, 648, 852 *)
| PageBack                                    (* lines 644, 699, 745 *)
| PageStudyTime (time : string)               (* line 583 *)
| PageShortTermGoal (v : string)              (* line 606 *)
| PageLongTermGoal (v : string)               (* line 618 *)
| PageLanguage (v : string)                   (* line 630 *)
| PageInterest (interest : string)            (* line 674 *)
| PageStartQuiz                               (* line 693 *)
| PageGenerate                                (* line 702 *)
| PageAnswer (option : string).               (* line 733 *)

(** The render [rendered] shows the element, and not disabled. *)
Definition offered (click : PageClick) (rendered : Cells) : bool :=
  match click with
  | PageNext =>
      match step rendered with
      | Welcome | Login | Dashboard => true
      | BasicInfo =>
          truthy (Some (shortTermGoal (userData rendered)))
          && truthy (Some (longTermGoal (userData rendered)))
      | _ => false
      end
  | PageBack =>
      match step rendered with
      | BasicInfo | Interests | Discovery => true
      | _ => false
      end
  | PageStudyTime time =>
      Step_eqb (step rendered) BasicInfo && mem_string time STUDY_TIMES
  | PageShortTermGoal _ | PageLongTermGoal _ => Step_eqb (step rendered) BasicInfo
  | PageLanguage v => Step_eqb (step rendered) BasicInfo && mem_string v LANGUAGES
  | PageInterest interest =>
      Step_eqb (step rendered) Interests && mem_string interest COMMON_INTERESTS
  | PageStartQuiz => Step_eqb (step rendered) Interests
  | PageGenerate =>
      Step_eqb (step rendered) Interests
      && negb (Nat.eqb (List.length (interests (userData rendered))) 0)
  | PageAnswer option =>
      Step_eqb (step rendered) Discovery
      && mem_string option
           (match questionAt (discoveryIndex rendered) with
            | Some q => options q
            | None => []
            end)
  end.

(** The handler the element holds in the render [rendered]. *)
Definition handleOf (rendered : Cells) (click : PageClick) (s : State) : State :=
  match click with
  | PageNext => handleNextOf rendered s
  | PageBack => handleBackOf rendered s
  | PageStudyTime time => setStudyTime time s
  | PageShortTermGoal v => setShortTermGoal v s
  | PageLongTermGoal v => setLongTermGoal v s
  | PageLanguage v => setLanguage v s
  | PageInterest interest => toggleInterest interest s
  | PageStartQuiz => setStep Discovery s
  | PageGenerate => handleGenerate (userData rendered) s
  | PageAnswer option => handleDiscoveryAnswerOf rendered option s
  end.

(** *** Events: what the user and the environment can do to the component *)

Inductive Event : Type :=
(* clicks and edits, enabled where the element is rendered *)
| ClickLogo                                   (* line 393 *)
| ClickMicToggle                              (* lines 399-410 *)
| ClickPanelClose                             (* lines 859, 870 *)
| ClickNext                                   (* lines 455, 537, 648, 852 *)
| ClickBack                                   (* lines 644, 699, 745 *)
| ClickStudyTime (time : string)              (* line 583 *)
| EditShortTermGoal (v : string)              (* line 606 *)
| EditLongTermGoal (v : string)               (* line 618 *)
| SelectLanguage (v : string)                 (* line 630 *)
| ClickInterest (interest : string)           (* line 674 *)
| ClickStartQuiz                              (* line 693 *)
| ClickGenerate                               (* line 702 *)
| ClickAnswer (option : string)               (* line 733 *)
| ClickStartOver                              (* line 891 *)
(* a click on an element of a page that is leaving, last rendered as
   [rendered] *)
| LeavingClick (rendered : Cells) (click : PageClick)
(* the Live API connection [k] *)
| ConnectResolved (k : nat)
| ConnectRejected (k : nat)
| Open (k : nat)
| Message (k : nat) (message : LiveServerMessage)
| Close (k : nat)
| Error (k : nat)
(* the microphone *)
| MicGranted (k : nat)
| MicDenied (k : nat)
| AudioProcess (k : nat) (inputData : list number)
(* the roadmap call [i] *)
| GenerateSettled (i : nat) (outcome : Outcome json).

Definition currentOptions (s : State) : list string :=
  match questionAt (discoveryIndex (cells s)) with
  | Some q => options q
  | None => []
  end.

(** Line 399: [step !== 'welcome' && step !== 'generating']. *)
Definition micToggleRendered (s : State) : bool :=
  negb (Step_eqb (step (cells s)) Welcome)
  && negb (Step_eqb (step (cells s)) Generating).

(** When an event can happen: a click needs its element rendered and not
    disabled, a callback needs its connection, request or capture.  A page
    can be leaving when it has an [exit] animation and the step has moved
    on from it; which of its renders was the last is not recorded, so every
    render of that page is taken as possible: the runs of the component are
    among the runs of this model. *)
Definition enabled (e : Event) (s : State) : bool :=
  let c := cells s in
  let w := world s in
  match e with
  | ClickLogo => true
  | ClickMicToggle => micToggleRendered s
  | ClickPanelClose => isLiveActive c
  | ClickNext =>
      match step c with
      | Welcome | Login | Dashboard => true
      | BasicInfo =>
          truthy (Some (shortTermGoal (userData c)))
          && truthy (Some (longTermGoal (userData c)))
      | _ => false
      end
  | ClickBack =>
      match step c with
      | BasicInfo | Interests | Discovery => true
      | _ => false
      end
  | ClickStudyTime time => Step_eqb (step c) BasicInfo && mem_string time STUDY_TIMES
  | EditShortTermGoal _ | EditLongTermGoal _ => Step_eqb (step c) BasicInfo
  | SelectLanguage v => Step_eqb (step c) BasicInfo && mem_string v LANGUAGES
  | ClickInterest interest =>
      Step_eqb (step c) Interests && mem_string interest COMMON_INTERESTS
  | ClickStartQuiz => Step_eqb (step c) Interests
  | ClickGenerate =>
      Step_eqb (step c) Interests
      && negb (Nat.eqb (List.length (interests (userData c))) 0)
  | ClickAnswer option =>
      Step_eqb (step c) Discovery && mem_string option (currentOptions s)
  | ClickStartOver => Step_eqb (step c) Results
  | LeavingClick rendered click =>
      hasExit (step rendered)
      && negb (Step_eqb (step rendered) (step c))
      && offered click rendered
  | ConnectResolved k | ConnectRejected k => mem k (connecting w)
  | Open k | Message k _ | Close k | Error k => Nat.ltb k (connects w)
  | MicGranted k | MicDenied k => mem k (micRequests w)
  | AudioProcess k _ => mem k (captures w)
  | GenerateSettled i _ => mem i (generatePending w)
  end.

(** The handler an event runs. *)
Definition handle (e : Event) (s : State) : State :=
  match e with
  | ClickLogo => setStep Welcome s
  | ClickMicToggle => micToggle s
  | ClickPanelClose => stopLiveSession s
  | ClickNext => handleNext s
  | ClickBack => handleBack s
  | ClickStudyTime time => setStudyTime time s
  | EditShortTermGoal v => setShortTermGoal v s
  | EditLongTermGoal v => setLongTermGoal v s
  | SelectLanguage v => setLanguage v s
  | ClickInterest interest => toggleInterest interest s
  | ClickStartQuiz => setStep Discovery s
  | ClickGenerate => handleGenerate (userData (cells s)) s
  | ClickAnswer option => handleDiscoveryAnswer option s
  | ClickStartOver => setStep Interests s
  | LeavingClick rendered click => handleOf rendered click s
  | ConnectResolved k => connectResolved k s
  | ConnectRejected k => connectRejected k s
  | Open k => onopen k s
  | Message _ message => onmessage message s
  | Close _ => onclose s
  | Error _ => onerror s
  | MicGranted k => startCapture k s
  | MicDenied k => micDenied k s
  | AudioProcess k inputData => onaudioprocess k inputData s
  | GenerateSettled i (Fulfilled data) => generateFulfilled i data s
  | GenerateSettled i (Rejected _) => generateRejected i s
  end.

(** The click on the same element while its page is the page on
    screen. *)
Definition onScreen (click : PageClick) : Event :=
  match click with
  | PageNext => ClickNext
  | PageBack => ClickBack
  | PageStudyTime time => ClickStudyTime time
  | PageShortTermGoal v => EditShortTermGoal v
  | PageLongTermGoal v => EditLongTermGoal v
  | PageLanguage v => SelectLanguage v
  | PageInterest interest => ClickInterest interest
  | PageStartQuiz => ClickStartQuiz
  | PageGenerate => ClickGenerate
  | PageAnswer option => ClickAnswer option
  end.

Definition fire (e : Event) (s : State) : option State :=
  if enabled e s then Some (handle e s) else None.

(** A run: the events happen one after the other; [None] if one of them
    cannot happen where it stands. *)
Fixpoint run (es : list Event) (s : State) : option State :=
  match es with
  | [] => Some s
  | e :: rest =>
      match fire e s with
      | Some s' => run rest s'
      | None => None
      end
  end.

(** Which events call [startLiveSession] and [stopLiveSession]: every
    occurrence of the two names in the component (lines 402 and 870). *)
Definition invokesStart (e : Event) (s : State) : bool :=
  match e with
  | ClickMicToggle => negb (isLiveActive (cells s))
  | _ => false
  end.

Definition invokesStop (e : Event) (s : State) : bool :=
  match e with
  | ClickMicToggle => isLiveActive (cells s)
  | ClickPanelClose => true
  | _ => false
  end.

(** Recorded quiz answers in which every entry files one of the options
    of a question under that question's id. *)
Definition answersKnown (o : list (string * string)) : Prop :=
  forall k v, In (k, v) o ->
    exists q, In q DISCOVERY_QUESTIONS /\ id q = k /\ In v (options q).

(** The bookkeeping of roadmap calls agrees with the wizard: the
    'generating' step has a call pending, and the pending calls are
    distinct calls that were made. *)
Definition callsConsistent (s : State) : Prop :=
  (step (cells s) = Generating -> generatePending (world s) <> [])
  /\ (forall i, In i (generatePending (world s)) ->
                (i < List.length (generateCalls (world s)))%nat)
  /\ NoDup (generatePending (world s)).

(** The events of the voice session, as opposed to those of the wizard
    and of the roadmap call. *)
Definition isLiveEvent (e : Event) : bool :=
  match e with
  | ClickMicToggle | ClickPanelClose
  | ConnectResolved _ | ConnectRejected _ | Open _ | Message _ _ | Close _
  | Error _ | MicGranted _ | MicDenied _ | AudioProcess _ _ => true
  | _ => false
  end.

(** *** Capture and transcript over many callbacks *)

(** [n] successive [onaudioprocess] calls of one capture. *)
Definition captureTicks (k : nat) (blocks : list (list number)) (s : State) : State :=
  fold_left (fun acc inputData => onaudioprocess k inputData acc) blocks s.

(** Successive [onmessage] calls. *)
Definition receive (messages : list LiveServerMessage) (s : State) : State :=
  fold_left (fun acc message => onmessage message acc) messages s.

(** The texts a sequence of messages makes [onmessage] append: the first
    part's text of each message in which it is a non-empty string. *)
Definition appendedTexts (messages : list LiveServerMessage) : list string :=
  flat_map (fun message =>
              match first_part_text message with
              | Some (String c t) => [String c t]
              | _ => []
              end) messages.

(** [a + b + ...] over a list of strings. *)
Fixpoint flatten (pieces : list string) : string :=
  match pieces with
  | [] => EmptyString
  | p :: rest => (p ++ flatten rest)%string
  end.

(** A message whose first part carries [t]. *)
Definition textMessage (t : string) : LiveServerMessage :=
  {| serverContent :=
       Some {| modelTurn := Some {| parts := Some [ {| text := Some t |} ] |} |} |}.

(** The transcript panel shows the string with [whitespace-pre-wrap]
    (line 874): one displayed line per newline-separated piece. *)
Fixpoint lines_from (current : string) (s : string) : list string :=
  match s with
  | EmptyString => [current]
  | String c rest =>
      if Ascii.eqb c (ascii_of_nat 10)
      then current :: lines_from EmptyString rest
      else lines_from (current ++ String c EmptyString)%string rest
  end.

Definition displayedLines (s : State) : list string :=
  lines_from EmptyString (liveTranscript (cells s)).

End App.

(* ================================================================== *)
(** * Properties                                                        *)
(* ================================================================== *)

Import Audio Json App.

Close Scope Q_scope.
Open Scope string_scope.
Open Scope list_scope.

(** ** PCM conversion *)

Section PcmFacts.

Local Open Scope Z_scope.

Lemma Qltb_true (a b : Q) : Qltb a b = true -> (a < b)%Q.
Proof.
  unfold Qltb. intro H. apply negb_true_iff in H.
  apply Qnot_le_lt. intro Hle. apply Qle_bool_iff in Hle. congruence.
Qed.

Lemma Qltb_false (a b : Q) : Qltb a b = false -> (b <= a)%Q.
Proof.
  unfold Qltb. intro H. apply negb_false_iff in H.
  now apply Qle_bool_iff.
Qed.

(** The clamp of line 287 yields NaN or a finite value in [-1, 1]. *)
Lemma clamp_cases (x : number) :
  clamp x = NaN \/
  exists c, clamp x = Finite c /\ (-1 # 1 <= c)%Q /\ (c <= 1)%Q.
Proof.
  destruct x as [ | [ | ] | q ]; unfold clamp; simpl.
  - now left.
  - right. exists (-1 # 1)%Q. repeat split; unfold Qle; simpl; lia.
  - right. exists 1%Q. repeat split; unfold Qle; simpl; lia.
  - right. destruct (Qltb q 1) eqn:Hhi; simpl.
    + destruct (Qltb (-1 # 1) q) eqn:Hlo.
      * exists q. repeat split.
        -- apply Qlt_le_weak. now apply Qltb_true.
        -- apply Qlt_le_weak. now apply Qltb_true.
      * exists (-1 # 1)%Q. repeat split; unfold Qle; simpl; lia.
    + exists 1%Q. repeat split; unfold Qle; simpl; lia.
Qed.

Lemma quot_bounds (n d K : Z) :
  0 < d -> - (K * d) <= n <= K * d -> - K <= Z.quot n d <= K.
Proof.
  intros Hd [Hlo Hhi]. split.
  - apply Z.le_trans with (Z.quot (- K * d) d).
    + rewrite Z.quot_mul; lia.
    + apply Z.quot_le_mono; lia.
  - apply Z.le_trans with (Z.quot (K * d) d).
    + apply Z.quot_le_mono; lia.
    + rewrite Z.quot_mul; lia.
Qed.

Lemma truncate_scaled_bounds (c : Q) :
  (-1 # 1 <= c)%Q -> (c <= 1)%Q ->
  -32767 <= truncate (c * hex_7FFF) <= 32767.
Proof.
  unfold Qle, truncate, hex_7FFF. destruct c as [n d]. simpl.
  intros Hlo Hhi.
  change (-32767) with (- (32767)).
  apply quot_bounds; [ lia | ].
  rewrite Pos2Z.inj_mul. lia.
Qed.

Lemma wrap16_id (t : Z) :
  -32768 <= t <= 32767 -> (t + 32768) mod 65536 - 32768 = t.
Proof. intro H. rewrite Z.mod_small; lia. Qed.

Lemma pcm_sample_bounds (x : number) : -32767 <= pcm_sample x <= 32767.
Proof.
  unfold pcm_sample.
  destruct (clamp_cases x) as [E | [c [E [Hlo Hhi]]]]; rewrite E; simpl.
  - lia.
  - pose proof (truncate_scaled_bounds Hlo Hhi) as Hb.
    rewrite wrap16_id; lia.
Qed.

Lemma pcm_sample_unwrapped (x : number) :
  pcm_sample x =
  match clamp x with
  | Finite c => truncate (c * hex_7FFF)
  | _ => 0
  end.
Proof.
  unfold pcm_sample.
  destruct (clamp_cases x) as [E | [c [E [Hlo Hhi]]]]; rewrite E; simpl.
  - reflexivity.
  - pose proof (truncate_scaled_bounds Hlo Hhi) as Hb.
    apply wrap16_id; lia.
Qed.

Lemma pcm_sample_saturates_high (q : Q) :
  (1 <= q)%Q -> pcm_sample (Finite q) = 32767.
Proof.
  intro H. unfold pcm_sample, clamp. simpl.
  destruct (Qltb q 1) eqn:E.
  - apply Qltb_true in E. exfalso. exact (Qlt_not_le _ _ E H).
  - reflexivity.
Qed.

Lemma pcm_sample_saturates_low (q : Q) :
  (q <= -1 # 1)%Q -> pcm_sample (Finite q) = -32767.
Proof.
  intro H. unfold pcm_sample, clamp. simpl.
  destruct (Qltb q 1) eqn:E; simpl.
  - destruct (Qltb (-1 # 1) q) eqn:E'.
    + apply Qltb_true in E'. exfalso. exact (Qlt_not_le _ _ E' H).
    + reflexivity.
  - apply Qltb_false in E. exfalso.
    assert (Hc : (1 <= -1 # 1)%Q) by (eapply Qle_trans; eauto).
    unfold Qle in Hc. simpl in Hc. lia.
Qed.

End PcmFacts.

Section PcmValue.

Local Open Scope Z_scope.

Lemma truncate_Qeq (a b : Q) : (a == b)%Q -> truncate a = truncate b.
Proof.
  unfold Qeq, truncate. destruct a as [na da], b as [nb db]. simpl. intro H.
  rewrite <- (Z.quot_mul_cancel_r na (Z.pos da) (Z.pos db)) by lia.
  rewrite <- (Z.quot_mul_cancel_r nb (Z.pos db) (Z.pos da)) by lia.
  rewrite H. f_equal. lia.
Qed.

Lemma Qltb_Qeq (a a' b b' : Q) :
  (a == a')%Q -> (b == b')%Q -> Qltb a b = Qltb a' b'.
Proof.
  intros Ha Hb. unfold Qltb. f_equal.
  destruct (Qle_bool b a) eqn:E, (Qle_bool b' a') eqn:E'; try reflexivity.
  - apply Qle_bool_iff in E. rewrite Ha, Hb in E.
    apply Qle_bool_iff in E. congruence.
  - apply Qle_bool_iff in E'. rewrite <- Ha, <- Hb in E'.
    apply Qle_bool_iff in E'. congruence.
Qed.

(** The converted sample depends on the value of the input only, not on the
    fraction that denotes it. *)
Lemma pcm_sample_value (q q' : Q) :
  (q == q')%Q -> pcm_sample (Finite q) = pcm_sample (Finite q').
Proof.
  intro H. unfold pcm_sample, clamp. simpl.
  rewrite (Qltb_Qeq (a := q) (a' := q') (b := 1%Q) (b' := 1%Q) H (Qeq_refl _)).
  destruct (Qltb q' 1); simpl; [ | reflexivity ].
  rewrite (Qltb_Qeq (a := (-1 # 1)%Q) (a' := (-1 # 1)%Q) (b := q) (b' := q')
             (Qeq_refl _) H).
  destruct (Qltb (-1 # 1) q'); simpl; [ | reflexivity ].
  rewrite (truncate_Qeq (a := (q * hex_7FFF)%Q) (b := (q' * hex_7FFF)%Q)).
  - reflexivity.
  - now rewrite H.
Qed.

Lemma digits2_pos_le (p : positive) (n : Z) :
  0 <= n -> Z.pos p < 2 ^ n -> Z.pos (digits2_pos p) <= n.
Proof.
  revert n. induction p as [ p IH | p IH | ]; intros n Hn Hp; simpl;
    assert (n <> 0) by (intro; subst; simpl in Hp; lia); try lia;
    replace n with (Z.succ (n - 1)) in Hp by lia;
    rewrite Z.pow_succ_r in Hp by lia;
    specialize (IH (n - 1)); lia.
Qed.

(** A significand below 2^53 at an exponent in range needs no shift, so
    the rounding of [SFmul] leaves it as it is. *)
Lemma shr_fexp_exact (m : positive) (e : Z) :
  Z.pos m < 2 ^ 53 -> -1074 <= e ->
  shr_fexp 53 1024 (Z.pos m) e loc_Exact
  = ({| shr_m := Z.pos m; shr_r := false; shr_s := false |}, e).
Proof.
  intros Hm He. unfold shr_fexp, shr. simpl shr_record_of_loc.
  assert (Hd : Z.pos (digits2_pos m) <= 53) by (apply digits2_pos_le; lia).
  unfold Zdigits2, fexp, emin.
  destruct (Z.max (Z.pos (digits2_pos m) + e - 53) (3 - 1024 - 53) - e) eqn:E;
    try reflexivity.
  lia.
Qed.

(** The binary64 product of a finite binary32 value (a significand below
    2^24, an exponent between -149 and 104) with [0x7FFF] is exact: IEEE
    multiplication returns the significand times 32767 at the same
    exponent, and the integer stored from it is the one [times] gives. *)
Lemma binary64_product_is_exact (s : bool) (m : positive) (e : Z) :
  Z.pos m < 2 ^ 24 -> -149 <= e <= 104 ->
  SFmul 53 1024 (S754_finite s m e) binary64_7FFF = S754_finite s (m * 32767) e
  /\ ToInt16 (of_spec_float (SFmul 53 1024 (S754_finite s m e) binary64_7FFF))
     = ToInt16 (times (of_spec_float (S754_finite s m e)) hex_7FFF).
Proof.
  intros Hm He.
  assert (E : SFmul 53 1024 (S754_finite s m e) binary64_7FFF
              = S754_finite s (m * 32767) e).
  { unfold binary64_7FFF, SFmul, binary_round_aux.
    rewrite xorb_false_r, Z.add_0_r.
    assert (Hp : Z.pos (m * 32767) < 2 ^ 53).
    { rewrite Pos2Z.inj_mul. change (2 ^ 53) with (2 ^ 24 * 2 ^ 29).
      assert (32767 < 2 ^ 29) by (simpl; lia). nia. }
    rewrite (@shr_fexp_exact _ e Hp) by lia.
    simpl shr_m. simpl loc_of_shr_record. simpl round_nearest_even.
    rewrite (@shr_fexp_exact _ e Hp) by lia. simpl shr_m.
    destruct (e <=? 1024 - 53) eqn:Le; [ reflexivity | ].
    apply Z.leb_gt in Le. lia. }
  split; [ exact E | ].
  rewrite E. unfold of_spec_float, times, ToInt16, hex_7FFF.
  do 3 f_equal. apply truncate_Qeq.
  change (32767 # 1)%Q with (inject_Z 32767).
  destruct s.
  - change (Z.neg (m * 32767)) with (Z.neg m * 32767).
    rewrite inject_Z_mult. ring.
  - change (Z.pos (m * 32767)) with (Z.pos m * 32767).
    rewrite inject_Z_mult. ring.
Qed.

(** The same for every datum a [Float32Array] can hold. *)
Lemma binary64_product_agrees (x : spec_float) :
  is_binary32 x = true ->
  ToInt16 (of_spec_float (SFmul 53 1024 x binary64_7FFF))
  = ToInt16 (times (of_spec_float x) hex_7FFF).
Proof.
  destruct x as [ s | s | | s m e ]; try reflexivity.
  simpl is_binary32. intro H.
  apply andb_true_iff in H. destruct H as [H He2].
  apply andb_true_iff in H. destruct H as [Hm He1].
  apply Z.ltb_lt in Hm. apply Z.leb_le in He1, He2.
  apply binary64_product_is_exact; [ exact Hm | split; assumption ].
Qed.

(** The finite value the clamp leaves. *)
Lemma clamp_finite (q : Q) :
  exists c, clamp (Finite q) = Finite c
            /\ ((q <= -1 # 1 /\ c = (-1 # 1)) \/ (-1 # 1 < q < 1 /\ c = q)
                \/ (1 <= q /\ c = 1))%Q.
Proof.
  unfold clamp. simpl.
  destruct (Qltb q 1) eqn:Hhi; simpl.
  - destruct (Qltb (-1 # 1) q) eqn:Hlo.
    + exists q. split; [ reflexivity | ]. right. left.
      apply Qltb_true in Hhi, Hlo. repeat split; assumption.
    + exists (-1 # 1)%Q. split; [ reflexivity | ]. left.
      apply Qltb_false in Hlo. split; [ assumption | reflexivity ].
  - exists 1%Q. split; [ reflexivity | ]. right. right.
    apply Qltb_false in Hhi. split; [ assumption | reflexivity ].
Qed.

Lemma pcm_sample_finite (q : Q) :
  exists c, pcm_sample (Finite q) = truncate (c * hex_7FFF)
            /\ ((q <= -1 # 1 /\ c = (-1 # 1)) \/ (-1 # 1 < q < 1 /\ c = q)
                \/ (1 <= q /\ c = 1))%Q.
Proof.
  destruct (clamp_finite q) as [c [E H]]. exists c. split; [ | exact H ].
  rewrite pcm_sample_unwrapped, E. reflexivity.
Qed.

End PcmValue.

(** C5.  The PCM conversion of lines 285-288 is a function of the
    sample block: it keeps the length of the block, every output lies in
    the 16-bit signed range (indeed in [-32767, 32767]), the stored integer
    is the truncated product of the clamped sample and 0x7FFF with no
    wrap-around, an input at or beyond +1.0 gives 32767, one at or beyond
    -1.0 gives -32767 (the infinities included), NaN gives 0, two
    fractions of equal value give the same integer, and on every datum a
    [Float32Array] can hold the IEEE binary64 product stores the same
    integer as the exact product.  Element i of the output is the
    conversion of element i of the input; the clamp takes a sample at or
    below -1 to -1, one at or above 1 to 1 and leaves the samples between
    as they are; and a sample q in [-1, 1] is stored as the integer part,
    toward zero, of 32767 q. *)
Theorem pcm_conversion_in_int16_range (inputData : list number) :
  List.length (pcm_block inputData) = List.length inputData
  /\ Forall (fun v => (-32768 <= v <= 32767)%Z) (pcm_block inputData)
  /\ (forall x,
        pcm_sample x =
        match clamp x with
        | Finite c => truncate (c * hex_7FFF)
        | _ => 0%Z
        end)
  /\ (forall q, (1 <= q)%Q -> pcm_sample (Finite q) = 32767%Z)
  /\ (forall q, (q <= -1 # 1)%Q -> pcm_sample (Finite q) = (-32767)%Z)
  /\ pcm_sample (Infinity false) = 32767%Z
  /\ pcm_sample (Infinity true) = (-32767)%Z
  /\ pcm_sample NaN = 0%Z
  /\ (forall q q', (q == q')%Q -> pcm_sample (Finite q) = pcm_sample (Finite q'))
  /\ (forall x, is_binary32 x = true ->
        ToInt16 (of_spec_float (SFmul 53 1024 x binary64_7FFF))
        = ToInt16 (times (of_spec_float x) hex_7FFF))
  /\ (forall i,
        nth_error (pcm_block inputData) i
        = option_map pcm_sample (nth_error inputData i))
  /\ (forall q, (q <= -1 # 1)%Q -> clamp (Finite q) = Finite (-1 # 1)%Q)
  /\ (forall q, (-1 # 1 < q)%Q -> (q < 1)%Q -> clamp (Finite q) = Finite q)
  /\ (forall q, (1 <= q)%Q -> clamp (Finite q) = Finite 1%Q)
  /\ clamp (Infinity true) = Finite (-1 # 1)%Q
  /\ clamp (Infinity false) = Finite 1%Q
  /\ clamp NaN = NaN
  /\ (forall q, (-1 # 1 <= q)%Q -> (q <= 1)%Q ->
        pcm_sample (Finite q) = Z.quot (Qnum q * 32767) (Z.pos (Qden q))).
Proof.
  split; [ apply length_map | ].
  split.
  { unfold pcm_block. apply Forall_forall. intros v Hv.
    apply in_map_iff in Hv. destruct Hv as [x [<- _]].
    pose proof (pcm_sample_bounds x). lia. }
  split; [ exact pcm_sample_unwrapped | ].
  split; [ exact pcm_sample_saturates_high | ].
  split; [ exact pcm_sample_saturates_low | ].
  split; [ reflexivity | ].
  split; [ reflexivity | ].
  split; [ reflexivity | ].
  split; [ exact pcm_sample_value | ].
  split; [ exact binary64_product_agrees | ].
  split; [ intro i; unfold pcm_block; apply nth_error_map | ].
  split.
  { intros q H. destruct (clamp_finite q) as [c [-> Hc]]. f_equal.
    destruct Hc as [[_ ->] | [[[Hc _] _] | [Hc _]]]; [ reflexivity | | ];
      exfalso; lra. }
  split.
  { intros q Hlo Hhi. destruct (clamp_finite q) as [c [-> Hc]]. f_equal.
    destruct Hc as [[Hc _] | [[_ ->] | [Hc _]]]; [ | reflexivity | ];
      exfalso; lra. }
  split.
  { intros q H. destruct (clamp_finite q) as [c [-> Hc]]. f_equal.
    destruct Hc as [[Hc _] | [[[_ Hc] _] | [_ ->]]]; [ | | reflexivity ];
      exfalso; lra. }
  split; [ reflexivity | ].
  split; [ reflexivity | ].
  split; [ reflexivity | ].
  intros q Hlo Hhi.
  destruct (pcm_sample_finite q) as [c [-> Hc]].
  rewrite (@truncate_Qeq (c * hex_7FFF)%Q (q * hex_7FFF)%Q).
  - unfold truncate, hex_7FFF. simpl. now rewrite Pos.mul_1_r.
  - unfold hex_7FFF.
    destruct Hc as [[? ->] | [[? ->] | [? ->]]]; nra.
Qed.

Lemma pcm_conversion_boundary_witness :
  pcm_sample (Finite 1) = 32767%Z
  /\ pcm_sample (Finite (3 # 2)) = 32767%Z
  /\ pcm_sample (Finite (-1 # 1)) = (-32767)%Z
  /\ pcm_sample (Finite (-5 # 2)) = (-32767)%Z
  /\ pcm_sample (Finite (2 # 4)) = pcm_sample (Finite (1 # 2))
  /\ ToInt16 (of_spec_float (SFmul 53 1024 (S754_finite true 3 (-2)) binary64_7FFF))
     = ToInt16 (times (of_spec_float (S754_finite true 3 (-2))) hex_7FFF)
  /\ clamp (Finite (-5 # 2)) = Finite (-1 # 1)
  /\ clamp (Finite (1 # 3)) = Finite (1 # 3)
  /\ clamp (Finite (3 # 2)) = Finite 1
  /\ pcm_sample (Finite (-1 # 3)) = Z.quot (-1 * 32767) 3.
Proof.
  destruct (pcm_conversion_in_int16_range [Finite 1; Finite (3 # 2)])
    as (_ & _ & _ & Hhi & Hlo & _ & _ & _ & Hval & Hieee & _ & Hcl & Hcm & Hch
        & _ & _ & _ & Hexact).
  split; [ apply Hhi; unfold Qle; simpl; lia | ].
  split; [ apply Hhi; unfold Qle; simpl; lia | ].
  split; [ apply Hlo; unfold Qle; simpl; lia | ].
  split; [ apply Hlo; unfold Qle; simpl; lia | ].
  split; [ apply Hval; unfold Qeq; simpl; lia | ].
  split; [ apply Hieee; reflexivity | ].
  split; [ apply Hcl; unfold Qle; simpl; lia | ].
  split; [ apply Hcm; unfold Qlt; simpl; lia | ].
  split; [ apply Hch; unfold Qle; simpl; lia | ].
  apply (Hexact (-1 # 3)%Q); unfold Qle; simpl; lia.
Defined.

(** ** Capture ticks and sends *)

Lemma onaudioprocess_set (k : nat) (inputData : list number) (s : State) :
  mem k (liveSessions (world s)) = true ->
  onaudioprocess k inputData s = sendRealtimeInput k (encode_block inputData) s.
Proof. unfold onaudioprocess. now intros ->. Qed.

Lemma onaudioprocess_unset (k : nat) (inputData : list number) (s : State) :
  mem k (liveSessions (world s)) = false ->
  onaudioprocess k inputData s = s.
Proof. unfold onaudioprocess. now intros ->. Qed.

Lemma captureTicks_sent (k : nat) (blocks : list (list number)) (s : State) :
  mem k (liveSessions (world s)) = true ->
  sent (world (captureTicks k blocks s)) =
  sent (world s) ++ map (fun inputData => (k, encode_block inputData)) blocks.
Proof.
  unfold captureTicks. revert s.
  induction blocks as [ | b blocks IH ]; intros s Hk; simpl.
  - now rewrite app_nil_r.
  - rewrite (@onaudioprocess_set k b s Hk).
    rewrite IH by exact Hk.
    simpl. now rewrite <- app_assoc.
Qed.

Lemma captureTicks_unset (k : nat) (blocks : list (list number)) (s : State) :
  mem k (liveSessions (world s)) = false ->
  captureTicks k blocks s = s.
Proof.
  unfold captureTicks.
  induction blocks as [ | b blocks IH ]; intro Hk; simpl; [ reflexivity | ].
  rewrite (@onaudioprocess_unset k b s Hk). now apply IH.
Qed.

Lemma onaudioprocess_rest (k : nat) (inputData : list number) (s : State) :
  cells (onaudioprocess k inputData s) = cells s
  /\ captures (world (onaudioprocess k inputData s)) = captures (world s)
  /\ liveSessions (world (onaudioprocess k inputData s)) = liveSessions (world s).
Proof.
  unfold onaudioprocess. destruct (mem k (liveSessions (world s)));
    repeat split; reflexivity.
Qed.

Lemma captureTicks_rest (k : nat) (blocks : list (list number)) (s : State) :
  cells (captureTicks k blocks s) = cells s
  /\ captures (world (captureTicks k blocks s)) = captures (world s).
Proof.
  unfold captureTicks. revert s.
  induction blocks as [ | b blocks IH ]; intro s; simpl.
  - now split.
  - destruct (IH (onaudioprocess k b s)) as [Hc Hp].
    destruct (onaudioprocess_rest k b s) as (Ec & Ep & _).
    rewrite Hc, Hp, Ec, Ep. now split.
Qed.

Lemma run_captureTicks (k : nat) (blocks : list (list number)) (s : State) :
  mem k (captures (world s)) = true ->
  run (map (AudioProcess k) blocks) s = Some (captureTicks k blocks s).
Proof.
  unfold captureTicks. revert s.
  induction blocks as [ | b blocks IH ]; intros s Hk; simpl; [ reflexivity | ].
  unfold fire. simpl enabled. rewrite Hk. simpl handle. apply IH.
  destruct (onaudioprocess_rest k b s) as (_ & -> & _). exact Hk.
Qed.

(** C6, as the code has it.  N capture ticks of one capture whose
    connect promise was fulfilled make exactly N [sendRealtimeInput] calls,
    in capture order, the i-th carrying the encoding of the i-th block under
    the fixed MIME type; the payload is [data] and [mimeType] only (no
    sequence number is attached).  While the connect promise of the capture
    is pending, or after it was rejected, every tick throws on reading
    [liveSession]: the ticks send nothing and change nothing.  In both cases
    the ticks change no cell, and N ticks of an open capture are a run of
    the component. *)
Theorem capture_ticks_send_in_order
    (k : nat) (blocks : list (list number)) (s : State) :
  (mem k (liveSessions (world s)) = true ->
     sent (world (captureTicks k blocks s)) =
       sent (world s) ++ map (fun inputData => (k, encode_block inputData)) blocks
     /\ List.length (sent (world (captureTicks k blocks s))) =
          List.length (sent (world s)) + List.length blocks
     /\ (forall i inputData,
           nth_error blocks i = Some inputData ->
           nth_error (sent (world (captureTicks k blocks s)))
                     (List.length (sent (world s)) + i)
           = Some (k, {| data := btoa (buffer_bytes (pcm_block inputData));
                         mimeType := "audio/pcm;rate=16000" |})))
  /\ (mem k (liveSessions (world s)) = false -> captureTicks k blocks s = s)
  /\ cells (captureTicks k blocks s) = cells s
  /\ (mem k (captures (world s)) = true ->
        run (map (AudioProcess k) blocks) s = Some (captureTicks k blocks s)).
Proof.
  split; [ | split; [ apply captureTicks_unset
                    | split; [ apply captureTicks_rest | apply run_captureTicks ] ] ].
  intro Hk. pose proof (@captureTicks_sent k blocks s Hk) as E.
  split; [ exact E | ].
  split; [ rewrite E, length_app, length_map; reflexivity | ].
  intros i inputData Hi. rewrite E.
  rewrite nth_error_app2 by lia.
  replace (List.length (sent (world s)) + i - List.length (sent (world s))) with i by lia.
  rewrite nth_error_map, Hi. reflexivity.
Qed.

Lemma capture_ticks_send_in_order_witness :
  nth_error
    (sent (world (captureTicks 0 [[Finite 1]; [Finite (-1 # 1)]]
                    (startCapture 0
                       (connectResolved 0 (onopen 0 (startLiveSession initialState))))))) 1
  = Some (0, {| data := "AYA="; mimeType := "audio/pcm;rate=16000" |})
  /\ run [AudioProcess 0 [Finite 1]; AudioProcess 0 [Finite (-1 # 1)]]
         (startCapture 0
            (connectResolved 0 (onopen 0 (startLiveSession initialState))))
     = Some (captureTicks 0 [[Finite 1]; [Finite (-1 # 1)]]
               (startCapture 0
                  (connectResolved 0 (onopen 0 (startLiveSession initialState)))))
  /\ captureTicks 0 [[Finite 1]; [Finite (-1 # 1)]]
       (startCapture 0 (onopen 0 (startLiveSession initialState)))
     = startCapture 0 (onopen 0 (startLiveSession initialState)).
Proof.
  destruct (capture_ticks_send_in_order 0 [[Finite 1]; [Finite (-1 # 1)]]
              (startCapture 0
                 (connectResolved 0 (onopen 0 (startLiveSession initialState)))))
    as (Hsent & _ & _ & Hrun).
  destruct (Hsent eq_refl) as (_ & _ & H).
  split; [ | split ].
  - exact (H 1 [Finite (-1 # 1)%Q] eq_refl).
  - apply Hrun. reflexivity.
  - destruct (capture_ticks_send_in_order 0 [[Finite 1]; [Finite (-1 # 1)]]
                (startCapture 0 (onopen 0 (startLiveSession initialState))))
      as (_ & Hunset & _).
    apply Hunset. reflexivity.
Defined.

(** C6, refuted as stated.  After a session is open and its capture
    runs, two ticks that deliver the same block send two equal payloads:
    nothing in a frame numbers it, so no sequence number can increase from
    the first frame to the second. *)
Lemma capture_frames_carry_no_sequence_number :
  option_map (fun s => sent (world s))
    (run [ClickNext; ClickMicToggle; Open 0; ConnectResolved 0; MicGranted 0;
          AudioProcess 0 [Finite (1 # 2)]; AudioProcess 0 [Finite (1 # 2)]]
         initialState)
  = Some [ (0, {| data := "/z8="; mimeType := "audio/pcm;rate=16000" |});
           (0, {| data := "/z8="; mimeType := "audio/pcm;rate=16000" |}) ]
  /\ forall seqno : nat * Media -> nat,
       ~ seqno (0, {| data := "/z8="; mimeType := "audio/pcm;rate=16000" |})
         < seqno (0, {| data := "/z8="; mimeType := "audio/pcm;rate=16000" |}).
Proof.
  split.
  - vm_compute. reflexivity.
  - intros seqno H. exact (Nat.lt_irrefl _ H).
Qed.

(** ** What the handlers do to the world *)

Ltac unfold_handlers :=
  unfold handle, handleOf, micToggle, stopLiveSession, startLiveSession,
    handleNext, handleBack, handleDiscoveryAnswer,
    handleNextOf, handleBackOf, handleDiscoveryAnswerOf, handleGenerate,
    toggleInterest, connectResolved, connectRejected, onopen, onmessage,
    onclose, onerror, onaudioprocess, generateFulfilled, generateRejected,
    setStudyTime, setShortTermGoal, setLongTermGoal, setLanguage,
    startCapture, micDenied, sendRealtimeInput, getUserMedia, close,
    live_connect, connect_settled, connect_fulfilled, console_error,
    callGenerate,
    generate_settled,
    setStep, setUserData, setDiscoveryIndex, setResults, setIsGenerating,
    setIsLiveActive, setLiveTranscript, setSession, onCells, onWorld in *.

Ltac break_match :=
  repeat match goal with
         | |- context [match ?x with _ => _ end] => destruct x eqn:?
         | |- context [if ?x then _ else _] => destruct x eqn:?
         end.

Ltac handler_cases := unfold_handlers; break_match; simpl in *.

(** Only the [getUserMedia] continuation touches the captures, and it adds
    one. *)
Lemma handle_captures (e : Event) (s : State) :
  captures (world (handle e s)) =
  captures (world s) ++ match e with MicGranted k => [k] | _ => [] end.
Proof.
  destruct e; handler_cases;
    rewrite ?app_nil_r; try reflexivity; try congruence.
Qed.

Lemma run_captures_prefix (es : list Event) (s : State) :
  match run es s with
  | Some s' => exists extra, captures (world s') = captures (world s) ++ extra
  | None => True
  end.
Proof.
  revert s. induction es as [ | e es IH ]; intro s; simpl.
  - exists []. now rewrite app_nil_r.
  - unfold fire. destruct (enabled e s); [ | exact I ].
    specialize (IH (handle e s)).
    destruct (run es (handle e s)) as [ s' | ]; [ | exact I ].
    destruct IH as [extra E]. rewrite E, handle_captures.
    rewrite <- app_assoc. eexists. reflexivity.
Qed.

(** A capture stays enabled: its [onaudioprocess] keeps being called. *)
Lemma capture_still_ticks (e : Event) (s : State) (k : nat) (b : list number) :
  enabled (AudioProcess k b) s = true ->
  enabled (AudioProcess k b) (handle e s) = true.
Proof.
  simpl. unfold mem. rewrite handle_captures, existsb_app.
  intros ->. reflexivity.
Qed.

(** ** Leaving the active state *)

(** C1, as the code has it.  Whichever way the session leaves the
    active state - [stopLiveSession], [onclose] or [onerror] - the flag
    [isLiveActive] is cleared.  [stopLiveSession] calls [close()] on the
    transport handle the [session] cell holds, if any, and keeps the cell;
    [onclose] clears the cell; [onerror] logs and leaves cell and handle
    alone.  None of the three touches the captures, and no event at all ever
    removes one: along every run the captures only grow, so a microphone
    stream once opened stays open, and a capture that can tick can still
    tick after any event. *)
Theorem leaving_active_clears_flag_keeps_captures (s : State) :
  isLiveActive (cells (stopLiveSession s)) = false
  /\ isLiveActive (cells (onclose s)) = false
  /\ isLiveActive (cells (onerror s)) = false
  /\ closeCalls (world (stopLiveSession s)) =
       closeCalls (world s)
       ++ match session (cells s) with Some k => [k] | None => [] end
  /\ session (cells (stopLiveSession s)) = session (cells s)
  /\ session (cells (onclose s)) = None
  /\ world (onclose s) = world s
  /\ session (cells (onerror s)) = session (cells s)
  /\ closeCalls (world (onerror s)) = closeCalls (world s)
  /\ console (world (onerror s)) = console (world s) ++ ["Live API Error:"]
  /\ captures (world (stopLiveSession s)) = captures (world s)
  /\ captures (world (onclose s)) = captures (world s)
  /\ captures (world (onerror s)) = captures (world s)
  /\ (forall e, exists extra,
        captures (world (handle e s)) = captures (world s) ++ extra)
  /\ (forall es,
        match run es s with
        | Some s' => exists extra,
            captures (world s') = captures (world s) ++ extra
        | None => True
        end)
  /\ (forall e k inputData,
        enabled (AudioProcess k inputData) s = true ->
        enabled (AudioProcess k inputData) (handle e s) = true).
Proof.
  repeat match goal with |- _ /\ _ => split end;
    try (unfold_handlers; simpl; try destruct (session (cells s));
         simpl; rewrite ?app_nil_r; reflexivity).
  - unfold_handlers. simpl. destruct (session (cells s)) eqn:E; simpl; congruence.
  - intro e. rewrite handle_captures. eexists. reflexivity.
  - intro es. apply run_captures_prefix.
  - intros e k inputData. apply capture_still_ticks.
Qed.

Lemma leaving_active_clears_flag_keeps_captures_witness :
  enabled (AudioProcess 0 [Finite 1])
    (handle ClickPanelClose
       (startCapture 0 (onopen 0 (connectResolved 0 (startLiveSession initialState)))))
  = true.
Proof.
  destruct (leaving_active_clears_flag_keeps_captures
              (startCapture 0 (onopen 0 (connectResolved 0 (startLiveSession initialState)))))
    as (_ & _ & _ & _ & _ & _ & _ & _ & _ & _ & _ & _ & _ & _ & _ & H).
  apply H. reflexivity.
Defined.

(** C1, refuted as stated.  A session is started, opens, and its
    capture runs; then it leaves the active state by an explicit stop, by an
    inbound close, or by an inbound error.  Each time the flag is cleared
    and the capture of connection 0 is still open and still enabled to
    tick. *)
Lemma microphone_stays_open_after_leaving_active :
  let live := [ClickNext; ClickMicToggle; Open 0; ConnectResolved 0; MicGranted 0] in
  let view := fun s =>
    (isLiveActive (cells s), captures (world s),
     enabled (AudioProcess 0 [Finite (1 # 2)]) s) in
  option_map view (run live initialState) = Some (true, [0], true)
  /\ option_map view (run (live ++ [ClickMicToggle]) initialState)
     = Some (false, [0], true)
  /\ option_map view (run (live ++ [Close 0]) initialState)
     = Some (false, [0], true)
  /\ option_map view (run (live ++ [Error 0]) initialState)
     = Some (false, [0], true).
Proof. vm_compute. repeat split. Qed.

(** ** [stopLiveSession] from any state *)




(** ** Starting a session *)

(** Only a click on the mic toggle while [isLiveActive] is false asks for
    a connection. *)
Lemma handle_connects (e : Event) (s : State) :
  connects (world (handle e s)) =
  connects (world s) + (if invokesStart e s then 1 else 0).
Proof.
  destruct e; unfold invokesStart;
    try destruct (isLiveActive (cells s)) eqn:Hlive;
    handler_cases; rewrite ?Nat.add_0_r, ?Nat.add_1_r;
    try reflexivity; try congruence.
Qed.

(** C2, as the code has it.  While [isLiveActive] is true the mic
    toggle runs [stopLiveSession], so a click asks for no connection and
    creates no capture.  [startLiveSession] itself has no guard: from every
    state, a pending connect included, it asks for one more connection and
    leaves the cells alone; while [isLiveActive] is false the toggle runs
    it.  Every connection that opens asks for the microphone, and every
    grant adds a capture of its own. *)
Theorem start_has_no_guard (s : State) :
  (isLiveActive (cells s) = true ->
     handle ClickMicToggle s = stopLiveSession s
     /\ connects (world (handle ClickMicToggle s)) = connects (world s)
     /\ connecting (world (handle ClickMicToggle s)) = connecting (world s)
     /\ micRequests (world (handle ClickMicToggle s)) = micRequests (world s)
     /\ captures (world (handle ClickMicToggle s)) = captures (world s))
  /\ (isLiveActive (cells s) = false ->
        handle ClickMicToggle s = startLiveSession s)
  /\ connects (world (startLiveSession s)) = S (connects (world s))
  /\ connecting (world (startLiveSession s)) =
       connecting (world s) ++ [connects (world s)]
  /\ cells (startLiveSession s) = cells s
  /\ (forall k, micRequests (world (onopen k s)) = micRequests (world s) ++ [k])
  /\ (forall k, captures (world (startCapture k s)) = captures (world s) ++ [k]).
Proof.
  repeat match goal with |- _ /\ _ => split end;
    try (intros; unfold_handlers; simpl; reflexivity).
  - intro H. simpl. unfold micToggle. rewrite H.
    repeat split; unfold_handlers; simpl;
      destruct (session (cells s)); reflexivity.
  - intro H. simpl. unfold micToggle. rewrite H. reflexivity.
Qed.

Lemma start_has_no_guard_witness :
  handle ClickMicToggle (onopen 0 (startLiveSession initialState))
  = stopLiveSession (onopen 0 (startLiveSession initialState))
  /\ handle ClickMicToggle (startLiveSession initialState)
     = startLiveSession (startLiveSession initialState).
Proof.
  split.
  - apply (start_has_no_guard (onopen 0 (startLiveSession initialState))).
    reflexivity.
  - apply (start_has_no_guard (startLiveSession initialState)).
    reflexivity.
Defined.

(** C2, refuted as stated.  The toggle is clicked twice while the
    first connect is still pending: two connections are requested.  Both
    open and both are granted the microphone: two captures exist, one per
    connection. *)
Lemma second_start_while_connecting :
  option_map (fun s => (connects (world s), connecting (world s)))
    (run [ClickNext; ClickMicToggle; ClickMicToggle] initialState)
  = Some (2, [0; 1])
  /\ option_map (fun s => (connects (world s), captures (world s)))
       (run [ClickNext; ClickMicToggle; ClickMicToggle;
             Open 0; ConnectResolved 0; Open 1; ConnectResolved 1;
             MicGranted 0; MicGranted 1] initialState)
     = Some (2, [0; 1]).
Proof. vm_compute. split; reflexivity. Qed.

(** C3, as the code has it.  When the connect of a start attempt
    fails, the handler only writes to the console: the cells after the
    attempt - [isLiveActive], [session], [liveTranscript] and the rest - are
    the cells before it, so the flag stays false if it was false, the
    transcript stays empty if it was empty, and no failure state or reason
    is stored.  No microphone request and no capture is made.  The same
    holds of the two steps apart: neither the call of [startLiveSession] nor
    the rejection of any pending connect changes a cell. *)
Theorem failed_connect_changes_no_cell (s : State) :
  cells (connectRejected (connects (world s)) (startLiveSession s)) = cells s
  /\ console (world (connectRejected (connects (world s)) (startLiveSession s)))
     = console (world s) ++ ["Failed to connect to Live API:"]
  /\ micRequests (world (connectRejected (connects (world s)) (startLiveSession s)))
     = micRequests (world s)
  /\ captures (world (connectRejected (connects (world s)) (startLiveSession s)))
     = captures (world s)
  /\ (forall k, cells (connectRejected k s) = cells s)
  /\ cells (startLiveSession s) = cells s
  /\ fire (ConnectRejected (connects (world s))) (startLiveSession s)
     = Some (connectRejected (connects (world s)) (startLiveSession s)).
Proof.
  repeat match goal with |- _ /\ _ => split end;
    try (intros; unfold_handlers; simpl; reflexivity).
  unfold fire. simpl. unfold mem. rewrite existsb_app. simpl.
  rewrite Nat.eqb_refl, orb_true_r. reflexivity.
Qed.

(** C3, refuted as stated.  A first session opens and is stopped,
    which leaves the banner in the transcript; the next start attempt fails
    to connect.  The cells after the failure are those before the attempt:
    the transcript is the banner, not empty, and nothing in the cells tells
    the failed attempt from no attempt.  The same holds for a first attempt
    from the fresh component. *)
Lemma failed_connect_is_not_recorded :
  let before := [ClickNext; ClickMicToggle; Open 0; ConnectResolved 0; ClickMicToggle] in
  option_map cells (run (before ++ [ClickMicToggle; ConnectRejected 1]) initialState)
  = option_map cells (run before initialState)
  /\ option_map (fun s => liveTranscript (cells s))
       (run (before ++ [ClickMicToggle; ConnectRejected 1]) initialState)
     = Some "Connected! Start speaking..."
  /\ option_map cells (run [ClickNext; ClickMicToggle; ConnectRejected 0] initialState)
     = option_map cells (run [ClickNext] initialState).
Proof. vm_compute. repeat split. Qed.

(** ** The wizard gate *)

Lemma handle_closeCalls (e : Event) (s : State) :
  closeCalls (world (handle e s)) <> closeCalls (world s) ->
  invokesStop e s = true.
Proof.
  destruct e; unfold invokesStop;
    try destruct (isLiveActive (cells s)) eqn:Hlive;
    handler_cases; try reflexivity; try congruence;
    intro H; exfalso; apply H; reflexivity.
Qed.

(** C8, as the code has it.  For every event that can happen in a
    state: if it calls [startLiveSession] it is the click on the mic toggle,
    the step is neither 'welcome' nor 'generating', and [isLiveActive] is
    false; if it calls [stopLiveSession] it is a click on the mic toggle or
    on the close button of the live panel, and [isLiveActive] is true.  No
    other event asks for a connection or calls [close()].  In the steps
    'welcome' and 'generating' the toggle is not rendered and no event asks
    for a connection. *)
Theorem start_gated_by_wizard_step (e : Event) (s : State) :
  enabled e s = true ->
  (invokesStart e s = true ->
     e = ClickMicToggle
     /\ step (cells s) <> Welcome /\ step (cells s) <> Generating
     /\ isLiveActive (cells s) = false
     /\ handle e s = startLiveSession s)
  /\ (invokesStop e s = true ->
        (e = ClickMicToggle \/ e = ClickPanelClose)
        /\ isLiveActive (cells s) = true
        /\ handle e s = stopLiveSession s)
  /\ (connects (world (handle e s)) <> connects (world s) ->
        invokesStart e s = true)
  /\ (closeCalls (world (handle e s)) <> closeCalls (world s) ->
        invokesStop e s = true)
  /\ (step (cells s) = Welcome \/ step (cells s) = Generating ->
        micToggleRendered s = false
        /\ invokesStart e s = false
        /\ connects (world (handle e s)) = connects (world s)).
Proof.
  intro En.
  assert (Gate : invokesStart e s = true ->
                 step (cells s) <> Welcome /\ step (cells s) <> Generating).
  { destruct e; simpl; try discriminate. intros _.
    simpl in En. unfold micToggleRendered in En.
    apply andb_true_iff in En. destruct En as [A B].
    apply negb_true_iff in A, B.
    split; intro E; rewrite E in *; discriminate. }
  split; [ | split; [ | split; [ | split ] ] ].
  - intro St. destruct (Gate St) as [G1 G2].
    destruct e; simpl in St; try discriminate.
    apply negb_true_iff in St.
    repeat split; try assumption.
    simpl. unfold micToggle. rewrite St. reflexivity.
  - intro St. destruct e; simpl in St; try discriminate.
    + repeat split; [ now left | assumption | ].
      simpl. unfold micToggle. rewrite St. reflexivity.
    + repeat split; [ now right | exact En ].
  - intro H. rewrite handle_connects in H.
    destruct (invokesStart e s); [ reflexivity | ].
    exfalso. apply H. apply Nat.add_0_r.
  - apply handle_closeCalls.
  - intro W.
    assert (NoStart : invokesStart e s = false).
    { destruct (invokesStart e s) eqn:St; [ | reflexivity ].
      destruct (Gate eq_refl) as [G1 G2]. destruct W; contradiction. }
    repeat split.
    + unfold micToggleRendered. destruct W as [W | W]; rewrite W; reflexivity.
    + exact NoStart.
    + rewrite handle_connects, NoStart. apply Nat.add_0_r.
Qed.

Lemma start_gated_by_wizard_step_witness :
  (step (cells (setStep Login initialState)) <> Welcome
   /\ handle ClickMicToggle (setStep Login initialState)
      = startLiveSession (setStep Login initialState))
  /\ handle ClickPanelClose (onopen 0 (startLiveSession initialState))
     = stopLiveSession (onopen 0 (startLiveSession initialState))
  /\ invokesStart ClickMicToggle (setStep Login initialState) = true
  /\ invokesStop ClickPanelClose
       (onopen 0 (connectResolved 0 (startLiveSession initialState))) = true
  /\ connects (world (handle ClickNext initialState)) = connects (world initialState).
Proof.
  split; [ | split; [ | split; [ | split ] ] ].
  - destruct (start_gated_by_wizard_step ClickMicToggle
                (setStep Login initialState) eq_refl) as (H & _).
    destruct (H eq_refl) as (_ & W & _ & _ & E).
    split; assumption.
  - destruct (start_gated_by_wizard_step ClickPanelClose
                (onopen 0 (startLiveSession initialState)) eq_refl)
      as (_ & H & _).
    destruct (H eq_refl) as (_ & _ & E). exact E.
  - destruct (start_gated_by_wizard_step ClickMicToggle
                (setStep Login initialState) eq_refl) as (_ & _ & H & _).
    apply H. simpl. discriminate.
  - destruct (start_gated_by_wizard_step ClickPanelClose
                (onopen 0 (connectResolved 0 (startLiveSession initialState)))
                eq_refl) as (_ & _ & _ & H & _).
    apply H. simpl. discriminate.
  - destruct (start_gated_by_wizard_step ClickNext initialState eq_refl)
      as (_ & _ & _ & _ & H).
    destruct H as (_ & _ & E); [ left; reflexivity | exact E ].
Defined.

(** C8, refuted as stated.  A session is started from 'login' and
    opens; the logo is clicked, which puts the wizard on 'welcome'.  The
    mic toggle is not rendered there, yet the live panel is, and a click on
    its close button runs [stopLiveSession]: the session handle gets its
    [close()] call from an action that is not the toggle. *)
Lemma stop_invoked_from_panel_on_welcome :
  option_map
    (fun s => (step (cells s), micToggleRendered s,
               enabled ClickPanelClose s, invokesStop ClickPanelClose s,
               closeCalls (world (handle ClickPanelClose s))))
    (run [ClickNext; ClickMicToggle; Open 0; ConnectResolved 0; ClickLogo]
         initialState)
  = Some (Welcome, false, true, true, [0]).
Proof. vm_compute. reflexivity. Qed.

(** ** The transcript *)

Lemma string_app_assoc (a b c : string) :
  ((a ++ b) ++ c)%string = (a ++ b ++ c)%string.
Proof. induction a as [ | x a IH ]; simpl; [ reflexivity | now rewrite IH ]. Qed.

Lemma string_app_nil_r (a : string) : (a ++ EmptyString)%string = a.
Proof. induction a as [ | x a IH ]; simpl; [ reflexivity | now rewrite IH ]. Qed.

Lemma onmessage_world (message : LiveServerMessage) (s : State) :
  world (onmessage message s) = world s.
Proof. unfold onmessage. break_match; reflexivity. Qed.

Lemma onmessage_transcript (message : LiveServerMessage) (s : State) :
  liveTranscript (cells (onmessage message s)) =
  (liveTranscript (cells s)
   ++ flatten (map (fun t => newline ++ t) (appendedTexts [message])))%string.
Proof.
  unfold onmessage, appendedTexts. simpl.
  destruct (first_part_text message) as [ [ | c t ] | ]; simpl;
    rewrite ?string_app_nil_r; reflexivity.
Qed.

Lemma appendedTexts_cons (message : LiveServerMessage) (ms : list LiveServerMessage) :
  appendedTexts (message :: ms) = appendedTexts [message] ++ appendedTexts ms.
Proof. unfold appendedTexts. simpl. now rewrite app_nil_r. Qed.

Lemma flatten_app (a b : list string) :
  flatten (a ++ b) = (flatten a ++ flatten b)%string.
Proof.
  induction a as [ | x a IH ]; simpl; [ reflexivity | ].
  now rewrite IH, string_app_assoc.
Qed.

Lemma receive_transcript (ms : list LiveServerMessage) (s : State) :
  liveTranscript (cells (receive ms s)) =
  (liveTranscript (cells s)
   ++ flatten (map (fun t => newline ++ t) (appendedTexts ms)))%string.
Proof.
  unfold receive. revert s.
  induction ms as [ | message ms IH ]; intro s.
  - simpl. now rewrite string_app_nil_r.
  - simpl fold_left. rewrite IH, onmessage_transcript.
    rewrite (appendedTexts_cons message ms), map_app, flatten_app.
    now rewrite string_app_assoc.
Qed.

Lemma receive_world (ms : list LiveServerMessage) (s : State) :
  world (receive ms s) = world s.
Proof.
  unfold receive. revert s.
  induction ms as [ | message ms IH ]; intro s; simpl; [ reflexivity | ].
  now rewrite IH, onmessage_world.
Qed.

Lemma appendedTexts_textMessages (ts : list string) :
  Forall (fun t => t <> EmptyString) ts ->
  appendedTexts (map textMessage ts) = ts.
Proof.
  induction 1 as [ | t ts Ht _ IH ]; [ reflexivity | ].
  simpl map. rewrite appendedTexts_cons, IH.
  destruct t as [ | c t ]; [ contradiction | reflexivity ].
Qed.

Lemma onmessage_connects (message : LiveServerMessage) (s : State) :
  connects (world (onmessage message s)) = connects (world s).
Proof. now rewrite onmessage_world. Qed.

Lemma run_receive (k : nat) (messages : list LiveServerMessage) (s : State) :
  Nat.ltb k (connects (world s)) = true ->
  run (map (Message k) messages) s = Some (receive messages s).
Proof.
  unfold receive. revert s.
  induction messages as [ | message ms IH ]; intros s Hk; simpl; [ reflexivity | ].
  unfold fire. simpl enabled. rewrite Hk. simpl handle. apply IH.
  now rewrite onmessage_connects.
Qed.

(** C4, as the code has it.  The transcript is one string.  After any
    sequence of inbound messages it is the string it was before, followed,
    in arrival order, by a newline and the text for each message whose first
    part carries a non-empty text; messages without such a text add nothing.
    K messages that each carry one non-empty text therefore add exactly
    their K texts, in order, each after a newline.  The messages change
    nothing in the world, a capture tick changes no cell, and the messages
    of an existing connection are a run of the component. *)
Theorem transcript_appends_texts_in_order
    (messages : list LiveServerMessage) (s : State) :
  liveTranscript (cells (receive messages s)) =
    (liveTranscript (cells s)
     ++ flatten (map (fun t => newline ++ t) (appendedTexts messages)))%string
  /\ world (receive messages s) = world s
  /\ (forall ts, Forall (fun t => t <> EmptyString) ts ->
        appendedTexts (map textMessage ts) = ts
        /\ liveTranscript (cells (receive (map textMessage ts) s)) =
           (liveTranscript (cells s)
            ++ flatten (map (fun t => newline ++ t) ts))%string)
  /\ (forall message,
        first_part_text message = None
        \/ first_part_text message = Some EmptyString ->
        onmessage message s = s)
  /\ (forall k inputData, cells (onaudioprocess k inputData s) = cells s)
  /\ (forall k, Nat.ltb k (connects (world s)) = true ->
        run (map (Message k) messages) s = Some (receive messages s)).
Proof.
  split; [ apply receive_transcript | ].
  split; [ apply receive_world | ].
  split; [ | split; [ | split ] ].
  - intros ts Hts. split; [ now apply appendedTexts_textMessages | ].
    rewrite receive_transcript, appendedTexts_textMessages by assumption.
    reflexivity.
  - intros message [H | H]; unfold onmessage; rewrite H; reflexivity.
  - intros k inputData. apply onaudioprocess_rest.
  - intros k Hk. now apply run_receive.
Qed.

Lemma transcript_appends_texts_in_order_witness :
  liveTranscript
    (cells (receive (map textMessage ["Hi"; " there"; "!"])
              (onopen 0 (startLiveSession initialState))))
  = ("Connected! Start speaking..."
     ++ flatten [newline ++ "Hi"; newline ++ " there"; newline ++ "!"])%string
  /\ onmessage (textMessage EmptyString) initialState = initialState
  /\ run (map (Message 0) [textMessage "Hi"])
         (onopen 0 (startLiveSession initialState))
     = Some (receive [textMessage "Hi"] (onopen 0 (startLiveSession initialState))).
Proof.
  destruct (transcript_appends_texts_in_order [textMessage "Hi"]
              (onopen 0 (startLiveSession initialState)))
    as (_ & _ & Happ & _ & _ & Hrun).
  split; [ | split ].
  - apply Happ. repeat constructor; discriminate.
  - destruct (transcript_appends_texts_in_order [] initialState)
      as (_ & _ & _ & Hskip & _).
    apply Hskip. right. reflexivity.
  - apply Hrun. reflexivity.
Defined.

(** C4, refuted as stated.  A session opens and the three deltas
    "Hi", " there", "!" arrive.  The transcript is then one string of four
    displayed lines, the banner first; it is not the three entries
    "Hi", " there", "!". *)
Lemma transcript_after_three_deltas :
  let after :=
    run [ClickNext; ClickMicToggle; Open 0; ConnectResolved 0;
         Message 0 (textMessage "Hi"); Message 0 (textMessage " there");
         Message 0 (textMessage "!")] initialState in
  option_map (fun s => liveTranscript (cells s)) after
  = Some ("Connected! Start speaking..." ++ newline ++ "Hi" ++ newline
          ++ " there" ++ newline ++ "!")%string
  /\ option_map displayedLines after
     = Some ["Connected! Start speaking..."; "Hi"; " there"; "!"]
  /\ option_map displayedLines after <> Some ["Hi"; " there"; "!"].
Proof.
  vm_compute. split; [ reflexivity | ]. split; [ reflexivity | ].
  intro H. discriminate H.
Qed.

(** C10, as the code has it.  When a connection opens, [onopen]
    overwrites the transcript, whatever it held, with the banner
    "Connected! Start speaking...", which is not empty, and sets
    [isLiveActive].  A later message adds to the one string the line feed
    (character 10) and the text of its first part when that text is a
    non-empty string, and adds nothing otherwise: a text that is empty, or
    that a later part carries, is dropped.  So after any messages the
    transcript is the banner followed, in arrival order, by a line feed and
    the text for each message that adds one; it is never empty. *)
Theorem open_overwrites_transcript_with_banner (s : State) (k : nat) :
  liveTranscript (cells (onopen k s)) = "Connected! Start speaking..."
  /\ liveTranscript (cells (onopen k s)) <> EmptyString
  /\ isLiveActive (cells (onopen k s)) = true
  /\ (forall message,
        liveTranscript (cells (onmessage message s)) =
        match first_part_text message with
        | Some (String c t) =>
            (liveTranscript (cells s) ++ String (ascii_of_nat 10) (String c t))%string
        | _ => liveTranscript (cells s)
        end)
  /\ (forall message t,
        first_part_text message = Some t -> t <> EmptyString ->
        liveTranscript (cells (onmessage message s)) =
        (liveTranscript (cells s) ++ String (ascii_of_nat 10) t)%string)
  /\ (forall messages,
        liveTranscript (cells (receive messages (onopen k s))) =
        ("Connected! Start speaking..."
         ++ flatten (map (String (ascii_of_nat 10)) (appendedTexts messages)))%string)
  /\ (forall ts, Forall (fun t => t <> EmptyString) ts ->
        liveTranscript (cells (receive (map textMessage ts) (onopen k s))) =
        ("Connected! Start speaking..."
         ++ flatten (map (String (ascii_of_nat 10)) ts))%string)
  /\ (forall messages,
        liveTranscript (cells (receive messages (onopen k s))) <> EmptyString).
Proof.
  split; [ reflexivity | ].
  split; [ discriminate | ].
  split; [ reflexivity | ].
  split.
  { intro message. unfold onmessage.
    destruct (first_part_text message) as [ [ | c t ] | ]; reflexivity. }
  split.
  { intros message t H Ht. unfold onmessage. rewrite H.
    destruct t as [ | c t ]; [ contradiction | reflexivity ]. }
  split.
  { intro messages. rewrite receive_transcript. reflexivity. }
  split.
  { intros ts Hts.
    rewrite receive_transcript, appendedTexts_textMessages by assumption.
    reflexivity. }
  intro messages. rewrite receive_transcript. discriminate.
Qed.

Lemma open_overwrites_transcript_with_banner_witness :
  liveTranscript
    (cells (onmessage (textMessage "Hi")
              (onopen 1 (stopLiveSession (onopen 0 initialState)))))
  = ("Connected! Start speaking..." ++ String (ascii_of_nat 10) "Hi")%string
  /\ liveTranscript
       (cells (receive (map textMessage ["Hi"; " there"])
                 (onopen 1 (receive [textMessage "old"] (onopen 0 initialState)))))
     = ("Connected! Start speaking..."
        ++ String (ascii_of_nat 10) "Hi"
        ++ String (ascii_of_nat 10) " there")%string.
Proof.
  split.
  - destruct (open_overwrites_transcript_with_banner
                (onopen 1 (stopLiveSession (onopen 0 initialState))) 0)
      as (_ & _ & _ & _ & H & _).
    apply (H (textMessage "Hi") "Hi" eq_refl). discriminate.
  - destruct (open_overwrites_transcript_with_banner
                (receive [textMessage "old"] (onopen 0 initialState)) 1)
      as (_ & _ & _ & _ & _ & _ & H & _).
    apply (H ["Hi"; " there"]).
    repeat constructor; discriminate.
Defined.

(** C10, refuted as stated.  A session opens, and two text deltas
    arrive: one whose text sits in the second part of the message, and one
    whose text is the empty string.  Neither is appended, and no separator
    is added: the transcript is still the banner alone. *)
Lemma text_deltas_are_dropped_after_open :
  option_map (fun s => liveTranscript (cells s))
    (run [ClickNext; ClickMicToggle; Open 0;
          Message 0
            {| serverContent :=
                 Some {| modelTurn :=
                           Some {| parts :=
                                     Some [ {| text := None |};
                                            {| text := Some "Hi" |} ] |} |} |};
          Message 0 (textMessage EmptyString)]
         initialState)
  = Some "Connected! Start speaking...".
Proof. vm_compute. reflexivity. Qed.

(** ** The roadmap request *)

Lemma lookup_In {A : Type} (k : string) (l : list (string * A)) (v : A) :
  lookup k l = Some v -> In (k, v) l.
Proof.
  induction l as [ | [k' v'] l IH ]; simpl; [ discriminate | ].
  destruct (String.eqb k k') eqn:E.
  - apply String.eqb_eq in E. intros [= ->]. subst. now left.
  - intro H. right. now apply IH.
Qed.

Lemma conforms_required
    (fields : list (string * json)) (props : list (string * Schema))
    (req : list string) (k : string) (sk : Schema) :
  conforms (JObject fields) (TObject props req) = true ->
  In k req -> lookup k props = Some sk ->
  exists x, lookup k fields = Some x /\ conforms x sk = true.
Proof.
  simpl. intros H Hk Hp. apply andb_true_iff in H. destruct H as [Hreq Hall].
  rewrite forallb_forall in Hreq, Hall.
  specialize (Hreq k Hk). unfold has_key in Hreq.
  destruct (lookup k fields) as [ x | ] eqn:E; [ | discriminate ].
  exists x. split; [ reflexivity | ].
  specialize (Hall (k, x) (@lookup_In _ _ _ _ E)). simpl in Hall.
  now rewrite Hp in Hall.
Qed.

Lemma conforms_string (x : json) :
  conforms x TString = true -> exists t, x = JString t.
Proof. destruct x; simpl; try discriminate. intros _. now eexists. Qed.

Lemma conforms_object (x : json) props req :
  conforms x (TObject props req) = true -> exists fields, x = JObject fields.
Proof. destruct x; simpl; try discriminate. intros _. now eexists. Qed.

Lemma careerSchema_milestones (v : json) :
  conforms v GenAI.careerSchema = true ->
  exists items, v = JArray items /\ Forall GenAI.hasMilestones items.
Proof.
  destruct v as [ | | | | items | ]; try discriminate.
  intro H. exists items. split; [ reflexivity | ].
  unfold GenAI.careerSchema in H. simpl conforms in H.
  rewrite forallb_forall in H. apply Forall_forall. intros r Hr.
  specialize (H r Hr).
  destruct (@conforms_object _ _ _ H) as [fields ->].
  destruct (@conforms_required _ _ _ "roadmap" GenAI.roadmapSchema H)
    as [rm [Erm Crm]]; [ simpl; tauto | reflexivity | ].
  destruct (@conforms_object _ _ _ Crm) as [roadmap ->].
  destruct (@conforms_required _ _ _ "day30" TString Crm)
    as [d30 [E30 C30]]; [ simpl; tauto | reflexivity | ].
  destruct (@conforms_required _ _ _ "day60" TString Crm)
    as [d60 [E60 C60]]; [ simpl; tauto | reflexivity | ].
  destruct (@conforms_required _ _ _ "day90" TString Crm)
    as [d90 [E90 C90]]; [ simpl; tauto | reflexivity | ].
  destruct (@conforms_string _ C30) as [t30 ->].
  destruct (@conforms_string _ C60) as [t60 ->].
  destruct (@conforms_string _ C90) as [t90 ->].
  exists fields, roadmap, t30, t60, t90. repeat split; assumption.
Qed.

(** C9, as the code has it.  [generateCareerRoadmap] issues one
    request, which carries the fixed response schema (a conforming value is
    an array of records whose roadmap has the three string milestones day30,
    day60, day90), and returns [JSON.parse] of the reply text - of "[]" when
    the text is absent or empty - as it is: the function does not check the
    parsed value against the schema, so the value conforms when the backend
    honours the schema it was sent.  A rejected request or a text that does
    not parse makes the call fail as a whole.  In [handleGenerate] one call
    is made per invocation; on failure [results] keeps its value, one line
    goes to the console and the wizard returns to 'interests'; on success
    [results] is the returned value, whole. *)
Theorem roadmap_call_single_shot_not_validated
    (JSON_parse : string -> option json) (prompt : UserData -> string)
    (generateContent :
       GenAI.GenerateContentParameters -> Outcome GenAI.GenerateContentResponse)
    (userData : UserData) (s : State) (i : nat) (data : json) :
  GenAI.responseSchema (GenAI.roadmapRequest prompt userData) = GenAI.careerSchema
  /\ GenAI.responseMimeType (GenAI.roadmapRequest prompt userData) = "application/json"
  /\ (forall v, conforms v GenAI.careerSchema = true ->
        exists items, v = JArray items /\ Forall GenAI.hasMilestones items)
  /\ (forall reason,
        generateContent (GenAI.roadmapRequest prompt userData) = Rejected reason ->
        GenAI.generateCareerRoadmap JSON_parse prompt generateContent userData
        = Rejected reason)
  /\ (forall response,
        generateContent (GenAI.roadmapRequest prompt userData) = Fulfilled response ->
        GenAI.generateCareerRoadmap JSON_parse prompt generateContent userData
        = match JSON_parse (match GenAI.text response with
                            | Some (String c t) => String c t
                            | _ => "[]"
                            end) with
          | Some v => Fulfilled v
          | None => Rejected "SyntaxError"
          end)
  /\ (JSON_parse "[]" = Some (JArray []) ->
      (forall response t v,
         generateContent (GenAI.roadmapRequest prompt userData) = Fulfilled response ->
         GenAI.text response = Some t -> JSON_parse t = Some v ->
         conforms v GenAI.careerSchema = true) ->
      match GenAI.generateCareerRoadmap JSON_parse prompt generateContent userData with
      | Fulfilled v => conforms v GenAI.careerSchema = true
      | Rejected _ => True
      end)
  /\ generateCalls (world (handleGenerate userData s))
     = generateCalls (world s) ++ [userData]
  /\ step (cells (handleGenerate userData s)) = Generating
  /\ results (cells (generateRejected i s)) = results (cells s)
  /\ step (cells (generateRejected i s)) = Interests
  /\ isGenerating (cells (generateRejected i s)) = false
  /\ console (world (generateRejected i s))
     = console (world s) ++ ["Failed to generate roadmap:"]
  /\ results (cells (generateFulfilled i data s)) = data
  /\ step (cells (generateFulfilled i data s)) = Results
  /\ isGenerating (cells (generateFulfilled i data s)) = false.
Proof.
  repeat match goal with |- _ /\ _ => split end; try reflexivity.
  - apply careerSchema_milestones.
  - intros reason H. unfold GenAI.generateCareerRoadmap. now rewrite H.
  - intros response H. unfold GenAI.generateCareerRoadmap, GenAI.parseResponse.
    rewrite H. destruct (GenAI.text response) as [ [ | c t ] | ]; reflexivity.
  - intros Hempty Hbackend.
    unfold GenAI.generateCareerRoadmap, GenAI.parseResponse.
    destruct (generateContent (GenAI.roadmapRequest prompt userData))
      as [ response | reason ] eqn:E; [ | exact I ].
    destruct (GenAI.text response) as [ [ | c t ] | ] eqn:Et; simpl.
    + rewrite Hempty. reflexivity.
    + destruct (JSON_parse (String c t)) as [ v | ] eqn:Ep; [ | exact I ].
      exact (Hbackend response (String c t) v eq_refl Et Ep).
    + rewrite Hempty. reflexivity.
Qed.

Lemma roadmap_call_single_shot_not_validated_witness :
  match GenAI.generateCareerRoadmap GenAI.JSON_parse_literals studyTime
          (fun _ => Fulfilled {| GenAI.text := None |}) initialUserData with
  | Fulfilled v => conforms v GenAI.careerSchema = true
  | Rejected _ => True
  end
  /\ GenAI.generateCareerRoadmap GenAI.JSON_parse_literals studyTime
       (fun _ => Rejected "503") initialUserData = Rejected "503"
  /\ GenAI.generateCareerRoadmap GenAI.JSON_parse_literals studyTime
       (fun _ => Fulfilled {| GenAI.text := Some "[]" |}) initialUserData
     = Fulfilled (JArray [])
  /\ (exists items, JArray [] = JArray items /\ Forall GenAI.hasMilestones items).
Proof.
  destruct (roadmap_call_single_shot_not_validated
              GenAI.JSON_parse_literals studyTime
              (fun _ => Fulfilled {| GenAI.text := None |})
              initialUserData initialState 0 JNull)
    as (_ & _ & Hschema & _ & _ & H & _).
  split; [ | split; [ | split ] ].
  - apply H; [ reflexivity | ].
    intros response t v E. injection E as <-. discriminate.
  - destruct (roadmap_call_single_shot_not_validated
                GenAI.JSON_parse_literals studyTime
                (fun _ => Rejected "503")
                initialUserData initialState 0 JNull)
      as (_ & _ & _ & Hrej & _).
    apply Hrej. reflexivity.
  - destruct (roadmap_call_single_shot_not_validated
                GenAI.JSON_parse_literals studyTime
                (fun _ => Fulfilled {| GenAI.text := Some "[]" |})
                initialUserData initialState 0 JNull)
      as (_ & _ & _ & _ & Hok & _).
    apply (Hok {| GenAI.text := Some "[]" |}). reflexivity.
  - apply Hschema. reflexivity.
Defined.

(** C9, refuted as stated.  The backend answers with the text "[{}]",
    or with "{}".  The call returns the parsed value and raises no error,
    although the value does not conform to the schema: the one record has
    no roadmap, or the value is not a sequence at all.  [handleGenerate]
    then stores it in [results] and shows the results step. *)
Lemma nonconforming_reply_is_returned :
  (forall prompt userData,
     GenAI.generateCareerRoadmap GenAI.JSON_parse_literals prompt
       (fun _ => Fulfilled {| GenAI.text := Some "[{}]" |}) userData
     = Fulfilled (JArray [JObject []]))
  /\ conforms (JArray [JObject []]) GenAI.careerSchema = false
  /\ (forall prompt userData,
        GenAI.generateCareerRoadmap GenAI.JSON_parse_literals prompt
          (fun _ => Fulfilled {| GenAI.text := Some "{}" |}) userData
        = Fulfilled (JObject []))
  /\ conforms (JObject []) GenAI.careerSchema = false
  /\ option_map (fun s => (step (cells s), results (cells s), console (world s)))
       (run [ClickNext; ClickNext; ClickNext;
             EditShortTermGoal "a"; EditLongTermGoal "b"; ClickNext;
             ClickInterest "Reasoning"; ClickGenerate;
             GenerateSettled 0 (Fulfilled (JArray [JObject []]))] initialState)
     = Some (Results, JArray [JObject []], []).
Proof. vm_compute. repeat split. Qed.

(* ================================================================== *)
(** * Further properties of the code                                    *)
(* ================================================================== *)

(** ** The sample conversion as a quantizer *)

Section Quantizer.

Local Open Scope Z_scope.

Lemma truncate_mono (a b : Q) : (a <= b)%Q -> truncate a <= truncate b.
Proof.
  unfold Qle, truncate. destruct a as [na da], b as [nb db]. simpl. intro H.
  rewrite <- (Z.quot_mul_cancel_r na (Z.pos da) (Z.pos db)) by lia.
  rewrite <- (Z.quot_mul_cancel_r nb (Z.pos db) (Z.pos da)) by lia.
  replace (Z.pos db * Z.pos da) with (Z.pos da * Z.pos db) by lia.
  apply Z.quot_le_mono; lia.
Qed.

Lemma truncate_opp (a : Q) : truncate (- a) = - truncate a.
Proof.
  unfold truncate. destruct a as [na da]. simpl.
  apply Z.quot_opp_l. lia.
Qed.

(** X1.  The conversion of line 287 preserves order: a larger sample
    never gives a smaller integer, and every sample's integer lies between
    those of the two infinities. *)
Theorem pcm_sample_monotone (q q' : Q) (x : number) :
  ((q <= q')%Q -> pcm_sample (Finite q) <= pcm_sample (Finite q'))
  /\ pcm_sample (Infinity true) <= pcm_sample x <= pcm_sample (Infinity false).
Proof.
  split.
  - intro H.
    destruct (pcm_sample_finite q) as [c [-> Hc]].
    destruct (pcm_sample_finite q') as [c' [-> Hc']].
    apply truncate_mono. unfold hex_7FFF.
    assert (c <= c')%Q.
    { destruct Hc as [[? ->] | [[? ->] | [? ->]]];
        destruct Hc' as [[? ->] | [[? ->] | [? ->]]]; lra. }
    nra.
  - change (pcm_sample (Infinity true)) with (-32767).
    change (pcm_sample (Infinity false)) with 32767.
    apply pcm_sample_bounds.
Qed.

Lemma pcm_sample_monotone_witness :
  pcm_sample (Finite (1 # 3)) <= pcm_sample (Finite (1 # 2)).
Proof.
  destruct (pcm_sample_monotone (1 # 3) (1 # 2) NaN) as [H _].
  apply H. unfold Qle. simpl. lia.
Defined.

(** X2.  The conversion is odd: negating a sample negates its integer,
    for finite samples and for the infinities.  So -32768 is never
    produced and silence (zero) stays zero. *)
Theorem pcm_sample_odd (q : Q) (s : bool) (x : number) :
  pcm_sample (Finite (- q)) = - pcm_sample (Finite q)
  /\ pcm_sample (Infinity (negb s)) = - pcm_sample (Infinity s)
  /\ pcm_sample (Finite 0) = 0
  /\ pcm_sample x <> -32768.
Proof.
  split; [ | split; [ destruct s; reflexivity | split; [ reflexivity | ] ] ];
    [ | pose proof (pcm_sample_bounds x); lia ].
  destruct (pcm_sample_finite q) as [c [-> Hc]].
  destruct (pcm_sample_finite (- q)) as [c' [-> Hc']].
  rewrite <- truncate_opp. apply truncate_Qeq. unfold hex_7FFF.
  assert (c' == - c)%Q.
  { destruct Hc as [[? ->] | [[? ->] | [? ->]]];
      destruct Hc' as [[? ->] | [[? ->] | [? ->]]]; lra. }
  nra.
Qed.

Lemma truncate_error (a : Q) :
  (Qabs (inject_Z (truncate a) - a) < 1)%Q
  /\ ((0 <= a)%Q -> (inject_Z (truncate a) <= a)%Q)
  /\ ((a <= 0)%Q -> (a <= inject_Z (truncate a))%Q).
Proof.
  destruct a as [n d]. unfold truncate.
  pose proof (Z.quot_rem' n (Z.pos d)) as E.
  assert (Hr : Z.abs (Z.rem n (Z.pos d)) < Z.pos d).
  { pose proof (Z.rem_bound_abs n (Z.pos d)). lia. }
  assert (Hs : 0 <= n -> 0 <= Z.rem n (Z.pos d)).
  { intro. apply Z.rem_nonneg; lia. }
  assert (Hs' : n <= 0 -> Z.rem n (Z.pos d) <= 0).
  { intro. apply Z.rem_nonpos; lia. }
  split; [ | split ].
  - unfold Qabs, Qlt, Qminus, Qplus, Qopp, inject_Z. simpl Qnum. simpl Qden. nia.
  - unfold Qle, inject_Z. simpl. nia.
  - unfold Qle, inject_Z. simpl. nia.
Qed.

(** X3.  For a sample inside [-1, 1] the stored integer is the product
    with 0x7FFF rounded toward zero: it differs from the exact product by
    less than one step and never exceeds it in magnitude. *)
Theorem pcm_sample_rounds_toward_zero (q : Q) :
  (-1 # 1 <= q)%Q -> (q <= 1)%Q ->
  (Qabs (inject_Z (pcm_sample (Finite q)) - q * 32767) < 1)%Q
  /\ ((0 <= q)%Q -> (inject_Z (pcm_sample (Finite q)) <= q * 32767)%Q)
  /\ ((q <= 0)%Q -> (q * 32767 <= inject_Z (pcm_sample (Finite q)))%Q).
Proof.
  intros Hlo Hhi.
  assert (E : pcm_sample (Finite q) = truncate (q * hex_7FFF)).
  { destruct (pcm_sample_finite q) as [c [-> Hc]]. apply truncate_Qeq.
    unfold hex_7FFF.
    destruct Hc as [[? ->] | [[? ->] | [? ->]]]; nra. }
  rewrite E. change hex_7FFF with (32767 # 1)%Q.
  destruct (truncate_error (q * (32767 # 1))) as (A & B & C).
  split; [ exact A | split ]; intro H; [ apply B | apply C ]; nra.
Qed.

Lemma pcm_sample_rounds_toward_zero_witness :
  (Qabs (inject_Z (pcm_sample (Finite (1 # 3))) - (1 # 3) * 32767) < 1)%Q
  /\ (inject_Z (pcm_sample (Finite (1 # 3))) <= (1 # 3) * 32767)%Q
  /\ ((-1 # 3) * 32767 <= inject_Z (pcm_sample (Finite (-1 # 3))))%Q.
Proof.
  destruct (@pcm_sample_rounds_toward_zero (1 # 3)%Q) as (A & B & _);
    [ unfold Qle; simpl; lia | unfold Qle; simpl; lia | ].
  destruct (@pcm_sample_rounds_toward_zero (-1 # 3)%Q) as (_ & _ & C);
    [ unfold Qle; simpl; lia | unfold Qle; simpl; lia | ].
  split; [ exact A | split ].
  - apply B. unfold Qle. simpl. lia.
  - apply C. unfold Qle. simpl. lia.
Defined.

End Quantizer.

(** ** Bytes and base64 of a PCM block *)

Section Encoding.

Local Open Scope Z_scope.

Lemma int16_bytes_spec (v : Z) :
  exists lo hi,
    int16_bytes v = [lo; hi] /\ is_byte lo /\ is_byte hi
    /\ lo + 256 * hi = v mod 65536.
Proof.
  unfold int16_bytes, is_byte.
  exists ((v mod 65536) mod 256), ((v mod 65536) / 256).
  split; [ reflexivity | ].
  pose proof (Z.mod_pos_bound v 65536 ltac:(lia)).
  repeat split; Z.div_mod_to_equations; lia.
Qed.

Lemma buffer_bytes_cons (v : Z) (rest : list Z) :
  buffer_bytes (v :: rest) =
  (v mod 65536) mod 256 :: (v mod 65536) / 256 :: buffer_bytes rest.
Proof. reflexivity. Qed.

Lemma buffer_bytes_are_bytes (pcmData : list Z) :
  Forall is_byte (buffer_bytes pcmData).
Proof.
  induction pcmData as [ | v rest IH ]; [ constructor | ].
  rewrite buffer_bytes_cons.
  pose proof (Z.mod_pos_bound v 65536 ltac:(lia)).
  repeat constructor; try assumption; unfold is_byte;
    Z.div_mod_to_equations; lia.
Qed.

Lemma buffer_bytes_nth (pcmData : list Z) :
  forall i v, nth_error pcmData i = Some v ->
    nth_error (buffer_bytes pcmData) (2 * i) = Some ((v mod 65536) mod 256)
    /\ nth_error (buffer_bytes pcmData) (2 * i + 1) = Some ((v mod 65536) / 256).
Proof.
  induction pcmData as [ | w rest IH ]; intros [ | i ] v H; simpl in H;
    try discriminate.
  - injection H as ->. split; reflexivity.
  - rewrite buffer_bytes_cons.
    replace (2 * S i)%nat with (S (S (2 * i))) by lia.
    replace (S (S (2 * i)) + 1)%nat with (S (S (2 * i + 1))) by lia.
    simpl nth_error. now apply IH.
Qed.

(** X4.  The byte view of the [Int16Array] (line 289) holds two bytes
    per sample, low byte first, every one in 0..255; reading the pair at
    positions 2i and 2i+1 back as a little-endian two's-complement number
    gives sample i again. *)
Theorem buffer_bytes_round_trip (pcmData : list Z) (i : nat) (v : Z) :
  nth_error pcmData i = Some v -> is_int16 v ->
  List.length (buffer_bytes pcmData) = (2 * List.length pcmData)%nat
  /\ Forall is_byte (buffer_bytes pcmData)
  /\ exists lo hi,
       nth_error (buffer_bytes pcmData) (2 * i) = Some lo
       /\ nth_error (buffer_bytes pcmData) (2 * i + 1) = Some hi
       /\ (lo + 256 * hi + 32768) mod 65536 - 32768 = v.
Proof.
  intros Hi Hv. split; [ | split ].
  - clear. induction pcmData as [ | w rest IH ]; [ reflexivity | ].
    rewrite buffer_bytes_cons. simpl List.length. lia.
  - apply buffer_bytes_are_bytes.
  - destruct (buffer_bytes_nth pcmData i Hi) as [Hlo Hhi].
    eexists. eexists. split; [ exact Hlo | split; [ exact Hhi | ] ].
    unfold is_int16 in Hv. Z.div_mod_to_equations. lia.
Qed.

Lemma buffer_bytes_round_trip_witness :
  exists lo hi,
    nth_error (buffer_bytes [1; -2; 300]) 2 = Some lo
    /\ nth_error (buffer_bytes [1; -2; 300]) 3 = Some hi
    /\ (lo + 256 * hi + 32768) mod 65536 - 32768 = -2.
Proof.
  destruct (@buffer_bytes_round_trip [1; -2; 300] 1%nat (-2) eq_refl) as (_ & _ & H).
  - unfold is_int16. lia.
  - exact H.
Defined.

Lemma list_ind3 (A : Type) (P : list A -> Prop) :
  P [] -> (forall a, P [a]) -> (forall a b, P [a; b]) ->
  (forall a b c rest, P rest -> P (a :: b :: c :: rest)) ->
  forall l, P l.
Proof.
  intros H0 H1 H2 H3.
  assert (H : forall n l, (List.length l <= n)%nat -> P l).
  { induction n as [ | n IH ]; intros l Hl.
    - destruct l; [ exact H0 | simpl in Hl; lia ].
    - destruct l as [ | a [ | b [ | c rest ] ] ]; auto.
      apply H3. apply IH. simpl in Hl. lia. }
  intro l. apply (H (List.length l)). lia.
Qed.

Lemma buffer_bytes_length (pcmData : list Z) :
  List.length (buffer_bytes pcmData) = (2 * List.length pcmData)%nat.
Proof.
  induction pcmData as [ | w rest IH ]; [ reflexivity | ].
  rewrite buffer_bytes_cons. simpl List.length. lia.
Qed.

Lemma btoa_length_bytes (bytes : list Z) :
  String.length (btoa bytes) = (4 * ((List.length bytes + 2) / 3))%nat.
Proof.
  induction bytes as [ | a | a b | a b c rest IH ] using list_ind3;
    try reflexivity.
  change (btoa (a :: b :: c :: rest))
    with (String (b64_char (a / 4))
            (String (b64_char ((a mod 4) * 16 + b / 16))
               (String (b64_char ((b mod 16) * 4 + c / 64))
                  (String (b64_char (c mod 64)) (btoa rest))))).
  simpl String.length. rewrite IH. simpl List.length.
  replace (S (S (S (List.length rest))) + 2)%nat
    with (List.length rest + 2 + 1 * 3)%nat by lia.
  rewrite Nat.div_add by lia. lia.
Qed.

(** X5.  [btoa] writes four characters for every three bytes, padding
    included: the text sent for a block of n samples has
    4 * ceil(2n / 3) characters, whatever the samples are. *)
Theorem btoa_length (bytes : list Z) (inputData : list number) :
  String.length (btoa bytes) = (4 * ((List.length bytes + 2) / 3))%nat
  /\ String.length (data (encode_block inputData))
     = (4 * ((2 * List.length inputData + 2) / 3))%nat.
Proof.
  split; [ apply btoa_length_bytes | ].
  unfold encode_block. simpl data.
  rewrite btoa_length_bytes, buffer_bytes_length.
  unfold pcm_block. rewrite length_map. reflexivity.
Qed.

Lemma b64_table_check :
  forallb (fun n =>
             negb (Ascii.eqb (b64_char n) "="%char)
             && forallb (fun m => implb (Ascii.eqb (b64_char n) (b64_char m))
                                        (n =? m))
                        (map Z.of_nat (seq 0 64)))
          (map Z.of_nat (seq 0 64)) = true.
Proof. vm_compute. reflexivity. Qed.

Lemma sextet_in_table (n : Z) : 0 <= n < 64 -> In n (map Z.of_nat (seq 0 64)).
Proof.
  intro H. apply in_map_iff. exists (Z.to_nat n). split; [ lia | ].
  apply in_seq. lia.
Qed.

Lemma b64_char_not_pad (n : Z) : 0 <= n < 64 -> b64_char n <> "="%char.
Proof.
  intros H E. pose proof b64_table_check as T.
  rewrite forallb_forall in T. specialize (T n (sextet_in_table H)).
  apply andb_true_iff in T. destruct T as [T _].
  rewrite E in T. discriminate.
Qed.

Lemma b64_char_inj (n m : Z) :
  0 <= n < 64 -> 0 <= m < 64 -> b64_char n = b64_char m -> n = m.
Proof.
  intros Hn Hm E. pose proof b64_table_check as T.
  rewrite forallb_forall in T. specialize (T n (sextet_in_table Hn)).
  apply andb_true_iff in T. destruct T as [_ T].
  rewrite forallb_forall in T. specialize (T m (sextet_in_table Hm)).
  rewrite E, Ascii.eqb_refl in T. simpl in T. now apply Z.eqb_eq.
Qed.

Ltac sextet := unfold is_byte in *; Z.div_mod_to_equations; lia.

Lemma btoa_inj (a : list Z) :
  forall b, Forall is_byte a -> Forall is_byte b -> btoa a = btoa b -> a = b.
Proof.
  induction a as [ | x | x y | x y z rest IH ] using list_ind3;
    intros [ | x' [ | y' [ | z' rest' ] ] ] Ha Hb E;
    try reflexivity; try discriminate E;
    repeat match goal with
           | H : Forall _ (_ :: _) |- _ => inversion H; subst; clear H
           end;
    simpl in E; injection E; intros;
    try (exfalso;
         match goal with
         | H : "="%char = b64_char ?n |- _ =>
             apply (@b64_char_not_pad n); [ sextet | now symmetry ]
         | H : b64_char ?n = "="%char |- _ =>
             apply (@b64_char_not_pad n); [ sextet | assumption ]
         end);
    repeat match goal with
           | H : b64_char ?n = b64_char ?m |- _ =>
               apply b64_char_inj in H; [ | sextet | sextet ]
           end.
  - f_equal. sextet.
  - assert (x = x' /\ y = y') as [-> ->] by sextet. reflexivity.
  - assert (x = x' /\ y = y' /\ z = z') as (-> & -> & ->) by sextet.
    do 3 f_equal. now apply IH.
Qed.

Lemma buffer_bytes_inj (a : list Z) :
  forall b, Forall is_int16 a -> Forall is_int16 b ->
            buffer_bytes a = buffer_bytes b -> a = b.
Proof.
  induction a as [ | v a IH ]; intros [ | w b ] Ha Hb E;
    try reflexivity; try discriminate E.
  rewrite !buffer_bytes_cons in E. injection E as E1 E2 E3.
  inversion Ha; subst. inversion Hb; subst.
  f_equal; [ | now apply IH ].
  unfold is_int16 in *. Z.div_mod_to_equations. lia.
Qed.

(** X6.  The payload loses nothing: two blocks are sent as the same
    base64 text only if they convert to the same PCM samples, and distinct
    byte strings never share a [btoa] text. *)
Theorem encode_block_lossless (a b : list number) (x y : list Z) :
  (encode_block a = encode_block b -> pcm_block a = pcm_block b)
  /\ (Forall is_byte x -> Forall is_byte y -> btoa x = btoa y -> x = y).
Proof.
  split; [ | apply btoa_inj ].
  unfold encode_block. intro E. injection E as E.
  apply btoa_inj in E; try apply buffer_bytes_are_bytes.
  apply buffer_bytes_inj in E; [ exact E | | ];
    unfold pcm_block; apply Forall_forall; intros v Hv;
    apply in_map_iff in Hv; destruct Hv as [s [<- _]];
    pose proof (pcm_sample_bounds s); unfold is_int16; lia.
Qed.

Lemma encode_block_lossless_witness :
  pcm_block [Finite (2 # 4); NaN] = pcm_block [Finite (1 # 2); Finite 0]
  /\ [255; 0] = [255; 0].
Proof.
  destruct (encode_block_lossless
              [Finite (2 # 4)%Q; NaN] [Finite (1 # 2)%Q; Finite 0%Q]
              [255; 0] [255; 0]) as [H1 H2].
  split.
  - apply H1. reflexivity.
  - apply H2; try reflexivity; repeat constructor; unfold is_byte; lia.
Defined.

End Encoding.

(** ** The profile: interests and quiz answers *)

Lemma mem_string_In (k : string) (l : list string) :
  mem_string k l = true <-> In k l.
Proof.
  unfold mem_string. rewrite existsb_exists. split.
  - intros [x [Hx E]]. apply String.eqb_eq in E. now subst.
  - intro H. exists k. split; [ exact H | apply String.eqb_refl ].
Qed.

Lemma mem_string_not_In (k : string) (l : list string) :
  mem_string k l = false <-> ~ In k l.
Proof.
  rewrite <- mem_string_In. destruct (mem_string k l); split; intro H;
    try discriminate; try reflexivity; try (exfalso; now apply H).
Qed.

Lemma toggleInterest_interests (interest : string) (s : State) :
  interests (userData (cells (toggleInterest interest s))) =
  if mem_string interest (interests (userData (cells s)))
  then filter (fun i => negb (String.eqb i interest)) (interests (userData (cells s)))
  else interests (userData (cells s)) ++ [interest].
Proof. reflexivity. Qed.

Lemma filter_out_In (interest j : string) (l : list string) :
  In j (filter (fun i => negb (String.eqb i interest)) l)
  <-> In j l /\ j <> interest.
Proof.
  rewrite filter_In. split; intros [H1 H2]; split; try assumption.
  - intro E. subst. rewrite String.eqb_refl in H2. discriminate.
  - apply negb_true_iff. now apply String.eqb_neq.
Qed.

Lemma filter_out_absent (interest : string) (l : list string) :
  ~ In interest l -> filter (fun i => negb (String.eqb i interest)) l = l.
Proof.
  induction l as [ | x l IH ]; intro H; simpl; [ reflexivity | ].
  destruct (String.eqb x interest) eqn:E; simpl.
  - apply String.eqb_eq in E. subst. exfalso. apply H. now left.
  - f_equal. apply IH. intro. apply H. now right.
Qed.

Lemma toggleInterest_In_self (interest : string) (s : State) :
  In interest (interests (userData (cells (toggleInterest interest s))))
  <-> ~ In interest (interests (userData (cells s))).
Proof.
  rewrite toggleInterest_interests.
  destruct (mem_string interest (interests (userData (cells s)))) eqn:M.
  - apply mem_string_In in M. rewrite filter_out_In.
    split; [ intros [_ H]; now contradiction H | tauto ].
  - apply mem_string_not_In in M. rewrite in_app_iff. simpl. tauto.
Qed.

Lemma toggleInterest_In_other (interest j : string) (s : State) :
  j <> interest ->
  (In j (interests (userData (cells (toggleInterest interest s))))
   <-> In j (interests (userData (cells s)))).
Proof.
  intro Hj. rewrite toggleInterest_interests.
  destruct (mem_string interest (interests (userData (cells s)))).
  - rewrite filter_out_In. tauto.
  - rewrite in_app_iff. simpl. split; [ | tauto ].
    intros [H | [H | []]]; [ exact H | now contradiction Hj ].
Qed.

Lemma toggleInterest_NoDup (interest : string) (s : State) :
  NoDup (interests (userData (cells s))) ->
  NoDup (interests (userData (cells (toggleInterest interest s)))).
Proof.
  intro H. rewrite toggleInterest_interests.
  destruct (mem_string interest (interests (userData (cells s)))) eqn:M.
  - now apply NoDup_filter.
  - apply mem_string_not_In in M.
    apply NoDup_app; [ exact H | repeat constructor; intros [] | ].
    intros x Hx [Hx' | []]. subst. contradiction.
Qed.

Lemma toggleInterest_twice (interest : string) (s : State) :
  ~ In interest (interests (userData (cells s))) ->
  interests (userData (cells (toggleInterest interest (toggleInterest interest s))))
  = interests (userData (cells s)).
Proof.
  intro M. rewrite toggleInterest_interests, toggleInterest_interests.
  assert (M1 : mem_string interest (interests (userData (cells s))) = false)
    by now apply mem_string_not_In.
  rewrite M1.
  assert (M2 : mem_string interest (interests (userData (cells s)) ++ [interest]) = true).
  { apply mem_string_In. apply in_app_iff. right. now left. }
  rewrite M2. rewrite filter_app, filter_out_absent by assumption.
  simpl. rewrite String.eqb_refl. simpl. apply app_nil_r.
Qed.

(** X7.  [toggleInterest] (lines 365-372) flips exactly one
    membership: afterwards the clicked interest is selected if and only if
    it was not before, every other interest is selected as before, a list
    without repetitions stays without repetitions, and no other field of
    the profile and no other cell changes.  Selecting and unselecting an
    interest that was not selected gives the list back.  An interest that
    was not selected is added at the end of the list; one that was selected
    is removed where it stood, the others keeping their order.  The study
    time, the two goals, the language and the quiz answers of the profile
    are as they were, and so are the step, the question index, the results,
    the two flags, the transcript, the session handle and the world. *)
Theorem toggleInterest_flips_one (interest : string) (s : State) :
  let before := interests (userData (cells s)) in
  let after := interests (userData (cells (toggleInterest interest s))) in
  (In interest after <-> ~ In interest before)
  /\ (forall j, j <> interest -> (In j after <-> In j before))
  /\ (NoDup before -> NoDup after)
  /\ (~ In interest before ->
      interests (userData (cells (toggleInterest interest (toggleInterest interest s))))
      = before)
  /\ setUserData (fun _ => userData (cells s)) (toggleInterest interest s) = s
  /\ (~ In interest before -> after = before ++ [interest])
  /\ (In interest before ->
      after = filter (fun i => negb (String.eqb i interest)) before)
  /\ studyTime (userData (cells (toggleInterest interest s)))
     = studyTime (userData (cells s))
  /\ shortTermGoal (userData (cells (toggleInterest interest s)))
     = shortTermGoal (userData (cells s))
  /\ longTermGoal (userData (cells (toggleInterest interest s)))
     = longTermGoal (userData (cells s))
  /\ language (userData (cells (toggleInterest interest s)))
     = language (userData (cells s))
  /\ discoveryAnswers (userData (cells (toggleInterest interest s)))
     = discoveryAnswers (userData (cells s))
  /\ step (cells (toggleInterest interest s)) = step (cells s)
  /\ discoveryIndex (cells (toggleInterest interest s)) = discoveryIndex (cells s)
  /\ results (cells (toggleInterest interest s)) = results (cells s)
  /\ isGenerating (cells (toggleInterest interest s)) = isGenerating (cells s)
  /\ isLiveActive (cells (toggleInterest interest s)) = isLiveActive (cells s)
  /\ liveTranscript (cells (toggleInterest interest s)) = liveTranscript (cells s)
  /\ session (cells (toggleInterest interest s)) = session (cells s)
  /\ world (toggleInterest interest s) = world s.
Proof.
  cbv zeta.
  split; [ apply toggleInterest_In_self | ].
  split; [ intros j Hj; now apply toggleInterest_In_other | ].
  split; [ apply toggleInterest_NoDup | ].
  split; [ apply toggleInterest_twice | ].
  split; [ destruct s as [[st ud di rs ig la lt ss] w]; destruct ud; reflexivity | ].
  split.
  { intro H. rewrite toggleInterest_interests.
    apply mem_string_not_In in H. now rewrite H. }
  split.
  { intro H. rewrite toggleInterest_interests.
    apply mem_string_In in H. now rewrite H. }
  repeat split.
Qed.

Lemma toggleInterest_flips_one_witness :
  interests (userData (cells (toggleInterest "Reasoning"
                                 (toggleInterest "Reasoning" initialState))))
  = []
  /\ NoDup (interests (userData (cells (toggleInterest "Reasoning" initialState))))
  /\ (In "Cybersecurity"
        (interests (userData (cells (toggleInterest "Reasoning" initialState))))
      <-> In "Cybersecurity" (interests (userData (cells initialState))))
  /\ interests (userData (cells (toggleInterest "Reasoning" initialState)))
     = ["Reasoning"]
  /\ interests
       (userData (cells (toggleInterest "Reasoning"
                           (toggleInterest "Cybersecurity"
                              (toggleInterest "Reasoning" initialState)))))
     = ["Cybersecurity"].
Proof.
  destruct (toggleInterest_flips_one "Reasoning" initialState)
    as (_ & Hother & Hnodup & Htwice & _ & Hadd & _).
  destruct (toggleInterest_flips_one "Reasoning"
              (toggleInterest "Cybersecurity"
                 (toggleInterest "Reasoning" initialState)))
    as (_ & _ & _ & _ & _ & _ & Hdel & _).
  split; [ | split; [ | split; [ | split ] ] ].
  - apply Htwice. intros [].
  - apply Hnodup. constructor.
  - apply Hother. discriminate.
  - apply Hadd. intros [].
  - apply Hdel. left. reflexivity.
Defined.

Lemma assign_lookup_same (k v : string) (o : list (string * string)) :
  lookup k (assign k v o) = Some v.
Proof.
  induction o as [ | [k0 v0] o IH ]; simpl.
  - now rewrite String.eqb_refl.
  - destruct (String.eqb k k0) eqn:E; simpl.
    + now rewrite String.eqb_refl.
    + now rewrite E.
Qed.

Lemma assign_lookup_other (k v k' : string) (o : list (string * string)) :
  k' <> k -> lookup k' (assign k v o) = lookup k' o.
Proof.
  intro Hk. apply String.eqb_neq in Hk.
  induction o as [ | [k0 v0] o IH ]; simpl.
  - now rewrite Hk.
  - destruct (String.eqb k k0) eqn:E; simpl.
    + apply String.eqb_eq in E. subst k0. now rewrite Hk.
    + destruct (String.eqb k' k0); [ reflexivity | exact IH ].
Qed.

Lemma assign_keys (k v : string) (o : list (string * string)) :
  map fst (assign k v o) =
  (if has_key k o then map fst o else map fst o ++ [k]).
Proof.
  unfold has_key.
  induction o as [ | [k0 v0] o IH ]; simpl; [ reflexivity | ].
  destruct (String.eqb k k0) eqn:E; simpl.
  - apply String.eqb_eq in E. now subst.
  - rewrite IH. destruct (lookup k o); reflexivity.
Qed.

(** X8.  The object update [{ ...answers, [qId]: answer }] of line
    378: the updated key reads back as the new answer, every other key
    reads as before, a key that was present keeps its place (the key list
    is unchanged), and a new key goes to the end. *)
Theorem assign_then_lookup (k v : string) (o : list (string * string)) :
  lookup k (assign k v o) = Some v
  /\ (forall k', k' <> k -> lookup k' (assign k v o) = lookup k' o)
  /\ map fst (assign k v o) =
       (if has_key k o then map fst o else map fst o ++ [k]).
Proof.
  split; [ apply assign_lookup_same | ].
  split; [ intros k' Hk; now apply assign_lookup_other | ].
  apply assign_keys.
Qed.

Lemma assign_then_lookup_witness :
  lookup "q1" (assign "q2" "Neither" [("q1", "Open to both")]) = Some "Open to both".
Proof.
  destruct (assign_then_lookup "q2" "Neither" [("q1", "Open to both")])
    as (_ & H & _).
  rewrite H; [ reflexivity | discriminate ].
Defined.

(** ** Invariants of the wizard along every run *)

Lemma run_invariant (P : State -> Prop) :
  (forall e s, enabled e s = true -> P s -> P (handle e s)) ->
  forall es s s', P s -> run es s = Some s' -> P s'.
Proof.
  intros Step es. induction es as [ | e es IH ]; intros s s' Hs Hrun; simpl in Hrun.
  - now injection Hrun as <-.
  - unfold fire in Hrun. destruct (enabled e s) eqn:En; [ | discriminate ].
    apply (IH (handle e s)); [ now apply Step | exact Hrun ].
Qed.

(** Only a click on an interest changes the selected interests. *)
Lemma handle_interests (e : Event) (s : State) :
  interests (userData (cells (handle e s))) =
  match e with
  | ClickInterest interest | LeavingClick _ (PageInterest interest) =>
      interests (userData (cells (toggleInterest interest s)))
  | _ => interests (userData (cells s))
  end.
Proof.
  destruct e; try destruct click;
    handler_cases; try reflexivity; congruence.
Qed.

(** X9.  In every state the component can reach, the selected
    interests are distinct entries of [COMMON_INTERESTS]; so there are at
    most fourteen of them. *)
Theorem interests_stay_distinct_and_known (es : list Event) (s : State) :
  run es initialState = Some s ->
  NoDup (interests (userData (cells s)))
  /\ incl (interests (userData (cells s))) COMMON_INTERESTS
  /\ List.length (interests (userData (cells s))) <= 14.
Proof.
  intro Hrun.
  assert (H : NoDup (interests (userData (cells s)))
              /\ incl (interests (userData (cells s))) COMMON_INTERESTS).
  { revert Hrun.
    apply (@run_invariant
             (fun s => NoDup (interests (userData (cells s)))
                       /\ incl (interests (userData (cells s))) COMMON_INTERESTS)).
    - intros e s0 En [Hd Hi]. rewrite handle_interests.
      assert (Toggle : forall interest,
                 In interest COMMON_INTERESTS ->
                 NoDup (interests (userData (cells (toggleInterest interest s0))))
                 /\ incl (interests (userData (cells (toggleInterest interest s0))))
                         COMMON_INTERESTS).
      { intros interest Hin. split; [ now apply toggleInterest_NoDup | ].
        intros j Hj.
        destruct (String.eqb_spec j interest) as [-> | Hne]; [ exact Hin | ].
        apply Hi. now apply (toggleInterest_In_other s0 Hne). }
      destruct e; try destruct click; try (split; assumption);
        apply Toggle; simpl in En;
        repeat (apply andb_true_iff in En; destruct En as [? En]);
        now apply mem_string_In.
    - split; [ constructor | intros x [] ]. }
  destruct H as [Hd Hi]. repeat split; try assumption.
  change 14 with (List.length COMMON_INTERESTS).
  now apply NoDup_incl_length.
Qed.

Lemma interests_stay_distinct_and_known_witness :
  NoDup
    (interests
       (userData
          (cells
             (fold_left (fun s e => handle e s)
                [ClickNext; ClickNext; ClickNext;
                 EditShortTermGoal "a"; EditLongTermGoal "b"; ClickNext;
                 ClickInterest "Reasoning"; ClickInterest "Cybersecurity"]
                initialState)))).
Proof.
  destruct (@interests_stay_distinct_and_known
              [ClickNext; ClickNext; ClickNext;
               EditShortTermGoal "a"; EditLongTermGoal "b"; ClickNext;
               ClickInterest "Reasoning"; ClickInterest "Cybersecurity"]
              (fold_left (fun s e => handle e s)
                 [ClickNext; ClickNext; ClickNext;
                  EditShortTermGoal "a"; EditLongTermGoal "b"; ClickNext;
                  ClickInterest "Reasoning"; ClickInterest "Cybersecurity"]
                 initialState)) as [H _]; [ vm_compute; reflexivity | ].
  exact H.
Defined.

(** The events of the page on screen keep the question index inside the
    table. *)
Lemma handle_discoveryIndex (e : Event) (s : State) :
  (forall rendered click, e <> LeavingClick rendered click) ->
  (0 <= discoveryIndex (cells s) <= 4)%Z ->
  (0 <= discoveryIndex (cells (handle e s)) <= 4)%Z.
Proof.
  intros Hcur H.
  destruct e; try (exfalso; now apply (Hcur rendered click));
    handler_cases; try assumption; try lia;
    repeat match goal with
           | E : (_ <? _)%Z = true |- _ => apply Z.ltb_lt in E
           | E : (_ <? _)%Z = false |- _ => apply Z.ltb_ge in E
           end; simpl in *; lia.
Qed.

Lemma onScreen_agrees (click : PageClick) (s : State) :
  enabled (onScreen click) s = offered click (cells s)
  /\ handle (onScreen click) s = handleOf (cells s) click s.
Proof. destruct click; split; reflexivity. Qed.

(** X10.  The question index and the pages that are leaving.  A click
    on the page on screen is the click of that page's last render taken
    now; and every event other than a click on a leaving page keeps an
    index inside the table 0..4 inside it.  A click on a leaving page does
    not: an answer button of a quiz page last rendered at a question before
    the last adds one to the index whatever the cell holds now, and its
    Back button, last rendered after the first question, subtracts one.  So
    the index leaves the table: after three answers, a click on the logo
    and two clicks on an answer of the leaving page the index is 5, and
    after one answer, the logo and two clicks on Back it is -1; when the
    wizard is walked to the quiz again, the page reads
    [DISCOVERY_QUESTIONS[discoveryIndex]] where the table has no entry. *)
Theorem discoveryIndex_leaves_table_on_leaving_page (s : State) :
  (forall click,
     enabled (onScreen click) s = offered click (cells s)
     /\ handle (onScreen click) s = handleOf (cells s) click s)
  /\ (forall e,
        (forall rendered click, e <> LeavingClick rendered click) ->
        (0 <= discoveryIndex (cells s) <= 4)%Z ->
        (0 <= discoveryIndex (cells (handle e s)) <= 4)%Z)
  /\ (forall rendered answer,
        (0 <= discoveryIndex rendered < 4)%Z ->
        discoveryIndex
          (cells (handle (LeavingClick rendered (PageAnswer answer)) s))
        = (discoveryIndex (cells s) + 1)%Z)
  /\ (forall rendered,
        step rendered = Discovery ->
        (0 < discoveryIndex rendered)%Z ->
        discoveryIndex (cells (handle (LeavingClick rendered PageBack) s))
        = (discoveryIndex (cells s) - 1)%Z)
  /\ match run [ClickNext; ClickNext; ClickNext;
                EditShortTermGoal "a"; EditLongTermGoal "b"; ClickNext;
                ClickStartQuiz; ClickAnswer "Open to both"; ClickAnswer "Neither";
                ClickAnswer "Maybe"] initialState with
     | Some quiz =>
         (step (cells quiz), discoveryIndex (cells quiz)) = (Discovery, 3%Z)
         /\ option_map
              (fun s' => (step (cells s'), discoveryIndex (cells s'),
                          questionAt (discoveryIndex (cells s')),
                          currentOptions s'))
              (run [ClickLogo;
                    LeavingClick (cells quiz) (PageAnswer "I can adapt to both");
                    LeavingClick (cells quiz) (PageAnswer "I can adapt to both");
                    ClickNext; ClickNext; ClickNext; ClickNext; ClickStartQuiz]
                   quiz)
            = Some (Discovery, 5%Z, None, [])
     | None => False
     end
  /\ match run [ClickNext; ClickNext; ClickNext;
                EditShortTermGoal "a"; EditLongTermGoal "b"; ClickNext;
                ClickStartQuiz; ClickAnswer "Open to both"] initialState with
     | Some quiz =>
         (step (cells quiz), discoveryIndex (cells quiz)) = (Discovery, 1%Z)
         /\ option_map
              (fun s' => (step (cells s'), discoveryIndex (cells s'),
                          questionAt (discoveryIndex (cells s')),
                          currentOptions s'))
              (run [ClickLogo;
                    LeavingClick (cells quiz) PageBack;
                    LeavingClick (cells quiz) PageBack;
                    ClickNext; ClickNext; ClickNext; ClickNext; ClickStartQuiz]
                   quiz)
            = Some (Discovery, (-1)%Z, None, [])
     | None => False
     end.
Proof.
  split; [ intro click; apply onScreen_agrees | ].
  split; [ intro e; apply handle_discoveryIndex | ].
  split; [ | split; [ | split ] ].
  - intros rendered answer [Hlo Hhi]. simpl handle. unfold handleOf.
    unfold handleDiscoveryAnswerOf, questionAt.
    destruct (Z.ltb_spec (discoveryIndex rendered) 0) as [ | _ ]; [ lia | ].
    destruct (nth_error DISCOVERY_QUESTIONS (Z.to_nat (discoveryIndex rendered)))
      as [ q | ] eqn:Eq.
    + assert (E : (discoveryIndex rendered
                   <? Z.of_nat (List.length DISCOVERY_QUESTIONS) - 1)%Z = true)
        by (apply Z.ltb_lt; simpl; lia).
      rewrite E. simpl. lia.
    + exfalso. apply nth_error_None in Eq. simpl in Eq. lia.
  - intros rendered Hstep Hidx. simpl handle. unfold handleOf, handleBackOf.
    rewrite Hstep.
    assert (E : (0 <? discoveryIndex rendered)%Z = true) by now apply Z.ltb_lt.
    rewrite E. simpl. lia.
  - vm_compute. split; reflexivity.
  - vm_compute. split; reflexivity.
Qed.

Lemma discoveryIndex_leaves_table_on_leaving_page_witness :
  (0 <= discoveryIndex
          (cells (handle (ClickAnswer "Open to both")
                    (setStep Discovery initialState))) <= 4)%Z
  /\ discoveryIndex
       (cells (handle (LeavingClick
                         (cells (setDiscoveryIndex (fun _ => 3%Z)
                                   (setStep Discovery initialState)))
                         (PageAnswer "Maybe"))
                 (setDiscoveryIndex (fun _ => 4%Z) initialState)))
     = 5%Z
  /\ discoveryIndex
       (cells (handle (LeavingClick
                         (cells (setDiscoveryIndex (fun _ => 1%Z)
                                   (setStep Discovery initialState)))
                         PageBack)
                 initialState))
     = (-1)%Z.
Proof.
  split; [ | split ].
  - destruct (discoveryIndex_leaves_table_on_leaving_page
                (setStep Discovery initialState))
      as (_ & H & _).
    apply (H (ClickAnswer "Open to both")); [ discriminate | simpl; lia ].
  - destruct (discoveryIndex_leaves_table_on_leaving_page
                (setDiscoveryIndex (fun _ => 4%Z) initialState))
      as (_ & _ & H & _).
    apply (H (cells (setDiscoveryIndex (fun _ => 3%Z)
                       (setStep Discovery initialState))) "Maybe").
    simpl. lia.
  - destruct (discoveryIndex_leaves_table_on_leaving_page initialState)
      as (_ & _ & _ & H & _).
    apply (H (cells (setDiscoveryIndex (fun _ => 1%Z)
                       (setStep Discovery initialState)))).
    + reflexivity.
    + simpl. lia.
Defined.

Lemma lookup_None_keys {A : Type} (k : string) (o : list (string * A)) :
  lookup k o = None -> ~ In k (map fst o).
Proof.
  induction o as [ | [k0 v0] o IH ]; simpl; [ tauto | ].
  destruct (String.eqb k k0) eqn:E; [ discriminate | ].
  apply String.eqb_neq in E. intros H [H' | H']; [ now subst | now apply IH ].
Qed.

Lemma assign_In (k v : string) (o : list (string * string)) (kv : string * string) :
  In kv (assign k v o) -> kv = (k, v) \/ In kv o.
Proof.
  induction o as [ | [k0 v0] o IH ]; simpl.
  - intros [H | []]. now left.
  - destruct (String.eqb k k0); simpl; intros [H | H]; auto.
    destruct (IH H); auto.
Qed.

Lemma assign_NoDup (k v : string) (o : list (string * string)) :
  NoDup (map fst o) -> NoDup (map fst (assign k v o)).
Proof.
  intro H. rewrite assign_keys.
  unfold has_key. destruct (lookup k o) eqn:E; [ exact H | ].
  apply NoDup_app; [ exact H | repeat constructor; intros [] | ].
  intros x Hx [<- | []]. exact (lookup_None_keys _ _ E Hx).
Qed.

Lemma handle_discoveryAnswers (e : Event) (s : State) :
  discoveryAnswers (userData (cells (handle e s))) =
  match e with
  | ClickAnswer option =>
      discoveryAnswers (userData (cells (handleDiscoveryAnswer option s)))
  | LeavingClick rendered (PageAnswer option) =>
      discoveryAnswers
        (userData (cells (handleDiscoveryAnswerOf rendered option s)))
  | _ => discoveryAnswers (userData (cells s))
  end.
Proof.
  destruct e; try destruct click; try reflexivity;
    handler_cases; try reflexivity; congruence.
Qed.

Lemma questionAt_In (i : Z) (q : Question) :
  questionAt i = Some q -> In q DISCOVERY_QUESTIONS.
Proof.
  unfold questionAt. destruct (i <? 0)%Z; [ discriminate | ].
  apply nth_error_In.
Qed.

Lemma handleDiscoveryAnswerOf_answers
    (rendered : Cells) (answer : string) (s : State) (q : Question) :
  questionAt (discoveryIndex rendered) = Some q ->
  discoveryAnswers (userData (cells (handleDiscoveryAnswerOf rendered answer s))) =
  Some (assign (id q) answer
          (match discoveryAnswers (userData (cells s)) with
           | Some o => o
           | None => []
           end)).
Proof.
  intro H. unfold handleDiscoveryAnswerOf. rewrite H.
  destruct (_ <? _)%Z; reflexivity.
Qed.

Lemma handleDiscoveryAnswer_answers (answer : string) (s : State) (q : Question) :
  questionAt (discoveryIndex (cells s)) = Some q ->
  discoveryAnswers (userData (cells (handleDiscoveryAnswer answer s))) =
  Some (assign (id q) answer
          (match discoveryAnswers (userData (cells s)) with
           | Some o => o
           | None => []
           end)).
Proof. apply handleDiscoveryAnswerOf_answers. Qed.

(** X11.  In every state the component can reach, the recorded quiz
    answers hold at most one answer per question: the keys are distinct ids
    of [DISCOVERY_QUESTIONS] and each value is one of the options of its
    question; so there are at most five entries. *)
Theorem discoveryAnswers_stay_well_formed
    (es : list Event) (s : State) (o : list (string * string)) :
  run es initialState = Some s ->
  discoveryAnswers (userData (cells s)) = Some o ->
  NoDup (map fst o)
  /\ answersKnown o
  /\ List.length o <= 5.
Proof.
  intros Hrun Ho.
  assert (H : forall o, discoveryAnswers (userData (cells s)) = Some o ->
                        NoDup (map fst o) /\ answersKnown o).
  { revert Hrun. clear.
    apply (@run_invariant
             (fun s => forall o, discoveryAnswers (userData (cells s)) = Some o ->
                                 NoDup (map fst o) /\ answersKnown o)).
    - intros e s0 En IH o. rewrite handle_discoveryAnswers.
      assert (File : forall rendered option,
                 mem_string option
                   (match questionAt (discoveryIndex rendered) with
                    | Some q => options q
                    | None => []
                    end) = true ->
                 discoveryAnswers
                   (userData (cells (handleDiscoveryAnswerOf rendered option s0)))
                 = Some o ->
                 NoDup (map fst o) /\ answersKnown o).
      { intros rendered option Hopt. apply mem_string_In in Hopt.
        destruct (questionAt (discoveryIndex rendered))
          as [ q | ] eqn:Eq; [ | contradiction ].
        rewrite (@handleDiscoveryAnswerOf_answers rendered option s0 q Eq). intros [= <-].
        assert (Old : NoDup (map fst (match discoveryAnswers (userData (cells s0)) with
                                      | Some o => o | None => [] end))
                      /\ answersKnown (match discoveryAnswers (userData (cells s0)) with
                                       | Some o => o | None => [] end)).
        { destruct (discoveryAnswers (userData (cells s0))) as [ o0 | ];
            [ now apply IH | split; [ constructor | intros k v [] ] ]. }
        destruct Old as [Hd Hk]. split; [ now apply assign_NoDup | ].
        intros k v Hin. apply assign_In in Hin. destruct Hin as [[= -> ->] | Hin].
        - exists q. repeat split; [ eapply questionAt_In; eassumption | exact Hopt ].
        - now apply Hk. }
      destruct e; try destruct click; try apply IH;
        simpl in En;
        repeat (apply andb_true_iff in En; destruct En as [? En]);
        now apply File.
    - intros o0 H0. discriminate H0. }
  destruct (H o Ho) as [Hd Hk]. repeat split; try assumption.
  rewrite <- (length_map fst o).
  change 5 with (List.length (map id DISCOVERY_QUESTIONS)).
  apply NoDup_incl_length; [ exact Hd | ].
  intros k Hin. apply in_map_iff in Hin. destruct Hin as [[k' v] [<- Hin]].
  destruct (Hk k' v Hin) as [q [Hq [<- _]]]. exact (in_map id _ _ Hq).
Qed.

Lemma discoveryAnswers_stay_well_formed_witness :
  NoDup (map fst [("q1", "Open to both"); ("q2", "Neither")]).
Proof.
  destruct (@discoveryAnswers_stay_well_formed
              [ClickNext; ClickNext; ClickNext;
               EditShortTermGoal "a"; EditLongTermGoal "b"; ClickNext;
               ClickStartQuiz; ClickAnswer "Open to both"; ClickAnswer "Neither"]
              (fold_left (fun s e => handle e s)
                 [ClickNext; ClickNext; ClickNext;
                  EditShortTermGoal "a"; EditLongTermGoal "b"; ClickNext;
                  ClickStartQuiz; ClickAnswer "Open to both"; ClickAnswer "Neither"]
                 initialState)
              [("q1", "Open to both"); ("q2", "Neither")])
    as [H _]; [ vm_compute; reflexivity | vm_compute; reflexivity | ].
  exact H.
Defined.

(** ** Navigation *)

(** X12.  Back undoes Next on the linear part of the wizard: on
    'welcome', 'login', 'dashboard' and 'basic-info', [handleBack] after
    [handleNext] gives the state back unchanged, and so it does on
    'interests' with nothing selected while the quiz stands at its first
    question (or the index is below it).  When the quiz stands at a later
    question, Back after Next stays in the quiz, one question earlier. *)
Theorem handleBack_undoes_handleNext (s : State) :
  (step (cells s) = Welcome \/ step (cells s) = Login
   \/ step (cells s) = Dashboard \/ step (cells s) = BasicInfo ->
   handleBack (handleNext s) = s)
  /\ (step (cells s) = Interests -> interests (userData (cells s)) = [] ->
      (discoveryIndex (cells s) <= 0)%Z -> handleBack (handleNext s) = s)
  /\ (forall n, step (cells s) = Interests -> interests (userData (cells s)) = [] ->
        discoveryIndex (cells s) = Z.of_nat (S n) ->
        step (cells (handleBack (handleNext s))) = Discovery
        /\ discoveryIndex (cells (handleBack (handleNext s))) = Z.of_nat n).
Proof.
  unfold handleBack, handleNext.
  split; [ | split ].
  - destruct s as [[st ud di rs ig la lt ss] w].
    simpl. intros [H | [H | [H | H]]]; subst; reflexivity.
  - destruct s as [[st ud di rs ig la lt ss] w].
    simpl. intros -> Hi Hd. unfold handleNextOf. simpl. rewrite Hi.
    unfold handleBackOf. simpl.
    destruct (Z.ltb_spec 0 di) as [ | _ ]; [ lia | reflexivity ].
  - intros n Hs Hi Hd. unfold handleNextOf. rewrite Hs, Hi.
    unfold handleBackOf.
    change (step (cells (setStep Discovery s))) with Discovery. cbv iota.
    change (discoveryIndex (cells (setStep Discovery s)))
      with (discoveryIndex (cells s)).
    assert (E : (0 <? discoveryIndex (cells s))%Z = true)
      by (apply Z.ltb_lt; lia).
    rewrite E. split; [ reflexivity | ].
    change (discoveryIndex (cells (setDiscoveryIndex Z.pred (setStep Discovery s))))
      with (Z.pred (discoveryIndex (cells s))).
    lia.
Qed.

Lemma handleBack_undoes_handleNext_witness :
  handleBack (handleNext initialState) = initialState
  /\ handleBack (handleNext (setStep Interests initialState))
     = setStep Interests initialState
  /\ step (cells (handleBack (handleNext
                    (setDiscoveryIndex (fun _ => 2%Z) (setStep Interests initialState)))))
     = Discovery.
Proof.
  split; [ | split ].
  - destruct (handleBack_undoes_handleNext initialState) as (H & _).
    apply H. left. reflexivity.
  - destruct (handleBack_undoes_handleNext (setStep Interests initialState))
      as (_ & H & _).
    apply H; [ reflexivity | reflexivity | simpl; lia ].
  - destruct (handleBack_undoes_handleNext
                (setDiscoveryIndex (fun _ => 2%Z) (setStep Interests initialState)))
      as (_ & _ & H).
    destruct (H 1 eq_refl eq_refl eq_refl) as [E _]. exact E.
Defined.

(** X13.  [handleDiscoveryAnswer] (lines 374-386) at a question of
    the table files the answer under the question's id and keeps the other
    answers.  Before the last question it moves to the next one and calls
    nothing.  At the last question it calls [generateCareerRoadmap] with the
    profile of the render the click belongs to, that is the profile as it
    was before this answer was filed: the answers sent are the old ones. *)
Theorem handleDiscoveryAnswer_files_answer
    (answer : string) (s : State) (q : Question) :
  questionAt (discoveryIndex (cells s)) = Some q ->
  let after := handleDiscoveryAnswer answer s in
  (exists o, discoveryAnswers (userData (cells after)) = Some o
             /\ lookup (id q) o = Some answer
             /\ forall k o0, k <> id q ->
                  discoveryAnswers (userData (cells s)) = Some o0 ->
                  lookup k o = lookup k o0)
  /\ ((discoveryIndex (cells s) < 4)%Z ->
      discoveryIndex (cells after) = Z.succ (discoveryIndex (cells s))
      /\ step (cells after) = step (cells s)
      /\ world after = world s)
  /\ (discoveryIndex (cells s) = 4%Z ->
      generateCalls (world after) = generateCalls (world s) ++ [userData (cells s)]
      /\ step (cells after) = Generating
      /\ discoveryIndex (cells after) = 4%Z).
Proof.
  intro Hq. cbv zeta. split; [ | split ].
  - rewrite (@handleDiscoveryAnswer_answers answer s q Hq).
    eexists. split; [ reflexivity | ].
    split; [ apply assign_lookup_same | ].
    intros k o0 Hk Ho. rewrite (assign_lookup_other _ _ Hk), Ho. reflexivity.
  - intro H. unfold handleDiscoveryAnswer, handleDiscoveryAnswerOf. rewrite Hq.
    assert (E : (discoveryIndex (cells s)
                 <? Z.of_nat (List.length DISCOVERY_QUESTIONS) - 1)%Z = true)
      by (apply Z.ltb_lt; simpl; lia).
    rewrite E. repeat split; reflexivity.
  - intro H. unfold handleDiscoveryAnswer, handleDiscoveryAnswerOf.
    rewrite Hq, H. simpl.
    repeat split; try reflexivity. exact H.
Qed.

Lemma handleDiscoveryAnswer_files_answer_witness :
  generateCalls
    (world (handleDiscoveryAnswer "I'm okay with it"
              (setDiscoveryIndex (fun _ => 4%Z) (setStep Discovery initialState))))
  = [initialUserData]
  /\ discoveryIndex
       (cells (handleDiscoveryAnswer "Maybe"
                 (setDiscoveryIndex (fun _ => 2%Z) (setStep Discovery initialState))))
     = 3%Z.
Proof.
  split.
  - destruct (@handleDiscoveryAnswer_files_answer "I'm okay with it"
                (setDiscoveryIndex (fun _ => 4%Z) (setStep Discovery initialState))
                _ eq_refl) as (_ & _ & H).
    destruct (H eq_refl) as [E _]. exact E.
  - destruct (@handleDiscoveryAnswer_files_answer "Maybe"
                (setDiscoveryIndex (fun _ => 2%Z) (setStep Discovery initialState))
                _ eq_refl) as (_ & H & _).
    destruct H as [E _]; [ simpl; lia | exact E ].
Defined.

(** ** The roadmap call and the wizard *)

Lemma remove1_In (k x : nat) (l : list nat) : In x (remove1 k l) -> In x l.
Proof.
  induction l as [ | y l IH ]; simpl; [ tauto | ].
  destruct (Nat.eqb k y); simpl; [ tauto | ].
  intros [H | H]; [ now left | right; now apply IH ].
Qed.

Lemma remove1_NoDup (k : nat) (l : list nat) : NoDup l -> NoDup (remove1 k l).
Proof.
  induction 1 as [ | y l Hy Hl IH ]; simpl; [ constructor | ].
  destruct (Nat.eqb k y); [ exact Hl | ].
  constructor; [ | exact IH ]. intro H. apply Hy. now apply remove1_In in H.
Qed.

Lemma callsConsistent_handleGenerate (profile : UserData) (s : State) :
  callsConsistent s -> callsConsistent (handleGenerate profile s).
Proof.
  intros (_ & Hlt & Hnd). unfold callsConsistent, handleGenerate. simpl.
  split; [ | split ].
  - intros _ E. now apply app_eq_nil in E as [_ E].
  - intros i Hi. rewrite length_app. simpl. apply in_app_iff in Hi.
    destruct Hi as [Hi | [<- | []]]; [ apply Hlt in Hi | ]; lia.
  - apply NoDup_app; [ exact Hnd | repeat constructor; intros [] | ].
    intros x Hx [<- | []]. apply Hlt in Hx. lia.
Qed.

Lemma callsConsistent_settled (i : nat) (s s' : State) :
  callsConsistent s ->
  step (cells s') <> Generating ->
  generatePending (world s') = remove1 i (generatePending (world s)) ->
  generateCalls (world s') = generateCalls (world s) ->
  callsConsistent s'.
Proof.
  intros (_ & Hlt & Hnd) Hstep Hp Hc. unfold callsConsistent.
  rewrite Hp, Hc. split; [ intro E; contradiction | split ].
  - intros j Hj. apply Hlt. now apply remove1_In in Hj.
  - now apply remove1_NoDup.
Qed.

Lemma callsConsistent_frame (s s' : State) :
  callsConsistent s ->
  (step (cells s') = Generating -> step (cells s) = Generating) ->
  world s' = world s \/
  (generatePending (world s') = generatePending (world s)
   /\ generateCalls (world s') = generateCalls (world s)) ->
  callsConsistent s'.
Proof.
  intros (Hgen & Hlt & Hnd) Hstep Hw. unfold callsConsistent.
  assert (E : generatePending (world s') = generatePending (world s)
              /\ generateCalls (world s') = generateCalls (world s)).
  { destruct Hw as [-> | Hw]; [ split; reflexivity | exact Hw ]. }
  destruct E as [-> ->]. split; [ | split; assumption ].
  intro H. apply Hgen. now apply Hstep.
Qed.

Lemma callsConsistent_handleNextOf (rendered : Cells) (s : State) :
  callsConsistent s -> callsConsistent (handleNextOf rendered s).
Proof.
  intro H. unfold handleNextOf.
  destruct (step rendered); try exact H;
    try (apply (@callsConsistent_frame s _ H);
         [ simpl; discriminate | left; reflexivity ]).
  destruct (interests (userData rendered));
    [ apply (@callsConsistent_frame s _ H); [ simpl; discriminate | left; reflexivity ]
    | now apply callsConsistent_handleGenerate ].
Qed.

Lemma callsConsistent_handleBackOf (rendered : Cells) (s : State) :
  callsConsistent s -> callsConsistent (handleBackOf rendered s).
Proof.
  intro H. unfold handleBackOf.
  destruct (step rendered); try exact H;
    try (apply (@callsConsistent_frame s _ H);
         [ simpl; discriminate | left; reflexivity ]).
  destruct (0 <? discoveryIndex rendered)%Z;
    apply (@callsConsistent_frame s _ H);
    try (simpl; discriminate); try (left; reflexivity).
  simpl. tauto.
Qed.

Lemma callsConsistent_handleDiscoveryAnswerOf
    (rendered : Cells) (answer : string) (s : State) :
  callsConsistent s -> callsConsistent (handleDiscoveryAnswerOf rendered answer s).
Proof.
  intro H. unfold handleDiscoveryAnswerOf.
  destruct (questionAt (discoveryIndex rendered)); [ | exact H ].
  destruct (_ <? _)%Z.
  - apply (@callsConsistent_frame s _ H); [ simpl; tauto | left; reflexivity ].
  - apply callsConsistent_handleGenerate.
    apply (@callsConsistent_frame s _ H); [ simpl; tauto | left; reflexivity ].
Qed.

Lemma callsConsistent_handle (e : Event) (s : State) :
  callsConsistent s -> callsConsistent (handle e s).
Proof.
  intro H.
  destruct e; try destruct click; cbv beta iota delta [handle handleOf];
    try (unfold handleNext; now apply callsConsistent_handleNextOf);
    try (unfold handleBack; now apply callsConsistent_handleBackOf);
    try (unfold handleDiscoveryAnswer;
         now apply callsConsistent_handleDiscoveryAnswerOf);
    try (now apply callsConsistent_handleGenerate);
    try (unfold onaudioprocess;
         destruct (mem _ (liveSessions (world s))); [ | exact H ]);
    try (apply (@callsConsistent_frame s _ H);
         [ unfold_handlers; simpl; try destruct (session (cells s));
           simpl; try discriminate; tauto
         | unfold_handlers; simpl; try destruct (session (cells s));
           simpl; right; split; reflexivity ]).
  - (* the mic toggle *)
    unfold micToggle. destruct (isLiveActive (cells s));
      apply (@callsConsistent_frame s _ H);
      unfold_handlers; simpl; try destruct (session (cells s)); simpl;
      try tauto; right; split; reflexivity.
  - (* a message *)
    unfold onmessage.
    destruct (truthy (first_part_text message)); [ | exact H ].
    destruct (first_part_text message); [ | exact H ].
    apply (@callsConsistent_frame s _ H); [ simpl; tauto | left; reflexivity ].
  - (* a roadmap call settles *)
    destruct outcome;
      apply (@callsConsistent_settled i s _ H);
      try reflexivity; simpl; discriminate.
Qed.

(** X14.  In every state the component can reach in which the wizard
    shows the 'generating' step, a roadmap call is still pending; and the
    pending calls are distinct calls that were really made. *)
Theorem generating_step_has_pending_call (es : list Event) (s : State) :
  run es initialState = Some s ->
  (step (cells s) = Generating -> generatePending (world s) <> [])
  /\ (forall i, In i (generatePending (world s)) ->
                i < List.length (generateCalls (world s)))
  /\ NoDup (generatePending (world s)).
Proof.
  apply (@run_invariant callsConsistent).
  - intros e s0 _. apply callsConsistent_handle.
  - split; [ discriminate | split; [ intros i [] | constructor ] ].
Qed.

Lemma generating_step_has_pending_call_witness :
  generatePending
    (world (fold_left (fun s e => handle e s)
              [ClickNext; ClickNext; ClickNext;
               EditShortTermGoal "a"; EditLongTermGoal "b"; ClickNext;
               ClickInterest "Reasoning"; ClickGenerate] initialState))
  <> [].
Proof.
  destruct (@generating_step_has_pending_call
              [ClickNext; ClickNext; ClickNext;
               EditShortTermGoal "a"; EditLongTermGoal "b"; ClickNext;
               ClickInterest "Reasoning"; ClickGenerate]
              (fold_left (fun s e => handle e s)
                 [ClickNext; ClickNext; ClickNext;
                  EditShortTermGoal "a"; EditLongTermGoal "b"; ClickNext;
                  ClickInterest "Reasoning"; ClickGenerate] initialState))
    as (H & _); [ vm_compute; reflexivity | ].
  apply H. reflexivity.
Defined.

(** ** The transcript over a whole run *)

Lemma handle_transcript (e : Event) (s : State) :
  liveTranscript (cells (handle e s)) =
  match e with
  | Open _ => banner
  | Message _ message => liveTranscript (cells (onmessage message s))
  | _ => liveTranscript (cells s)
  end.
Proof.
  destruct e; try reflexivity; handler_cases; try reflexivity; congruence.
Qed.

Lemma string_app_not_empty (a b : string) :
  a <> EmptyString -> (a ++ b)%string <> EmptyString.
Proof. destruct a; [ congruence | discriminate ]. Qed.

(** X15.  Nothing ever clears the transcript.  After any run the
    transcript is the earlier transcript with text appended, or the banner
    with text appended; so once the panel has shown text it never shows an
    empty transcript again, not after a stop, a close, an error or a failed
    restart. *)
Theorem transcript_is_never_cleared (es : list Event) (s s' : State) :
  run es s = Some s' ->
  (exists rest,
     liveTranscript (cells s') = (liveTranscript (cells s) ++ rest)%string
     \/ liveTranscript (cells s') = ("Connected! Start speaking..." ++ rest)%string)
  /\ (liveTranscript (cells s) <> EmptyString ->
      liveTranscript (cells s') <> EmptyString).
Proof.
  intro Hrun.
  assert (H : exists rest,
            liveTranscript (cells s') = (liveTranscript (cells s) ++ rest)%string
            \/ liveTranscript (cells s') = (banner ++ rest)%string).
  { revert Hrun.
    apply (@run_invariant
             (fun x => exists rest,
                liveTranscript (cells x) = (liveTranscript (cells s) ++ rest)%string
                \/ liveTranscript (cells x) = (banner ++ rest)%string)).
    - intros e s0 _ [rest IH]. rewrite handle_transcript.
      destruct e; try (exists rest; exact IH).
      + exists EmptyString. right. reflexivity.
      + rewrite onmessage_transcript.
        eexists. destruct IH as [-> | ->]; [ left | right ];
          rewrite string_app_assoc; reflexivity.
    - exists EmptyString. left. now rewrite string_app_nil_r. }
  split; [ exact H | ].
  intro Hne. destruct H as [rest [-> | ->]].
  - now apply string_app_not_empty.
  - discriminate.
Qed.

Lemma transcript_is_never_cleared_witness :
  liveTranscript
    (cells (fold_left (fun s e => handle e s)
              [ClickMicToggle; Close 0; ClickMicToggle; ConnectRejected 1]
              (onmessage (textMessage "Hi")
                 (onopen 0 (startLiveSession (setStep Login initialState))))))
  <> EmptyString.
Proof.
  destruct (@transcript_is_never_cleared
              [ClickMicToggle; Close 0; ClickMicToggle; ConnectRejected 1]
              (onmessage (textMessage "Hi")
                 (onopen 0 (startLiveSession (setStep Login initialState))))
              (fold_left (fun s e => handle e s)
                 [ClickMicToggle; Close 0; ClickMicToggle; ConnectRejected 1]
                 (onmessage (textMessage "Hi")
                    (onopen 0 (startLiveSession (setStep Login initialState))))))
    as (_ & H); [ vm_compute; reflexivity | ].
  apply H. discriminate.
Defined.

(** ** The wizard and the voice session side by side *)

(** X16.  The wizard and the voice session do not touch each other.
    An event of the wizard or of the roadmap call - navigation, edits, the
    quiz, generating, a settled call - leaves [isLiveActive], the
    transcript, the session handle and every connection, microphone request,
    capture, [close()] call and sent frame as they are; so moving through
    the steps, also onto 'welcome' and 'generating', never stops a session.
    An event of the voice session leaves the step, the profile, the quiz
    index, the results and the roadmap calls as they are. *)
Theorem wizard_and_session_are_independent (e : Event) (s : State) :
  (isLiveEvent e = false ->
     isLiveActive (cells (handle e s)) = isLiveActive (cells s)
     /\ liveTranscript (cells (handle e s)) = liveTranscript (cells s)
     /\ session (cells (handle e s)) = session (cells s)
     /\ connects (world (handle e s)) = connects (world s)
     /\ connecting (world (handle e s)) = connecting (world s)
     /\ closeCalls (world (handle e s)) = closeCalls (world s)
     /\ micRequests (world (handle e s)) = micRequests (world s)
     /\ captures (world (handle e s)) = captures (world s)
     /\ sent (world (handle e s)) = sent (world s))
  /\ (isLiveEvent e = true ->
        step (cells (handle e s)) = step (cells s)
        /\ userData (cells (handle e s)) = userData (cells s)
        /\ discoveryIndex (cells (handle e s)) = discoveryIndex (cells s)
        /\ results (cells (handle e s)) = results (cells s)
        /\ isGenerating (cells (handle e s)) = isGenerating (cells s)
        /\ generateCalls (world (handle e s)) = generateCalls (world s)
        /\ generatePending (world (handle e s)) = generatePending (world s)).
Proof.
  split; intro L; destruct e; try discriminate L; clear L;
    handler_cases; repeat split; try reflexivity; congruence.
Qed.

Lemma wizard_and_session_are_independent_witness :
  isLiveActive (cells (handle ClickLogo (onopen 0 (startLiveSession initialState))))
  = true
  /\ step (cells (handle (Error 0) (setStep Interests initialState))) = Interests.
Proof.
  split.
  - destruct (wizard_and_session_are_independent ClickLogo
                (onopen 0 (startLiveSession initialState))) as [H _].
    destruct (H eq_refl) as [E _]. exact E.
  - destruct (wizard_and_session_are_independent (Error 0)
                (setStep Interests initialState)) as [_ H].
    destruct (H eq_refl) as [E _]. exact E.
Defined.

(** X17.  The results cell is replaced only when a roadmap call is
    fulfilled, and then by what the call returned: every other event - a
    failed call, Start Over, the logo, starting a new generation - keeps
    the results of the last fulfilled call. *)
Theorem results_change_only_on_fulfilled_call (e : Event) (s : State) :
  (forall i data, e = GenerateSettled i (Fulfilled data) ->
     results (cells (handle e s)) = data)
  /\ ((forall i data, e <> GenerateSettled i (Fulfilled data)) ->
      results (cells (handle e s)) = results (cells s)).
Proof.
  split.
  - intros i data ->. reflexivity.
  - intro H. destruct e; try (handler_cases; try reflexivity; congruence).
    destruct outcome as [ data | reason ]; [ | reflexivity ].
    exfalso. exact (H i data eq_refl).
Qed.

Lemma results_change_only_on_fulfilled_call_witness :
  results (cells (handle (GenerateSettled 0 (Rejected "503"))
                    (setResults (JArray [JNull]) initialState)))
  = JArray [JNull]
  /\ results (cells (handle (GenerateSettled 0 (Fulfilled (JArray [])))
                       (setResults (JArray [JNull]) initialState)))
     = JArray [].
Proof.
  destruct (results_change_only_on_fulfilled_call
              (GenerateSettled 0 (Rejected "503"))
              (setResults (JArray [JNull]) initialState)) as [_ H].
  destruct (results_change_only_on_fulfilled_call
              (GenerateSettled 0 (Fulfilled (JArray [])))
              (setResults (JArray [JNull]) initialState)) as [H' _].
  split.
  - apply H. intros i data. discriminate.
  - apply (H' 0 (JArray [])). reflexivity.
Defined.

(** ** Frames and banner along every run *)

Lemma handle_sent (e : Event) (s : State) :
  sent (world (handle e s)) =
  sent (world s)
  ++ match e with
     | AudioProcess k inputData =>
         if mem k (liveSessions (world s))
         then [(k, encode_block inputData)]
         else []
     | _ => []
     end.
Proof.
  destruct e; handler_cases; rewrite ?app_nil_r; try reflexivity; congruence.
Qed.

(** X18.  In every state the component can reach, every frame that
    was sent carries the MIME type audio/pcm;rate=16000 and a base64 text of
    a whole number of four-character groups, and was sent to the session of
    a capture that exists: nothing but a capture's [onaudioprocess] ever
    calls [sendRealtimeInput]. *)
Theorem sent_frames_come_from_captures
    (es : list Event) (s : State) (k : nat) (media : Media) :
  run es initialState = Some s ->
  In (k, media) (sent (world s)) ->
  mimeType media = "audio/pcm;rate=16000"
  /\ (exists n, String.length (data media) = 4 * n)
  /\ In k (captures (world s)).
Proof.
  intros Hrun. revert k media. revert Hrun.
  apply (@run_invariant
           (fun s => forall k media, In (k, media) (sent (world s)) ->
              mimeType media = "audio/pcm;rate=16000"
              /\ (exists n, String.length (data media) = 4 * n)
              /\ In k (captures (world s)))).
  - intros e s0 En IH k media Hin.
    rewrite handle_sent in Hin. rewrite handle_captures.
    apply in_app_iff in Hin. destruct Hin as [Hin | Hin].
    + destruct (IH k media Hin) as (A & B & C).
      repeat split; try assumption. apply in_app_iff. now left.
    + destruct e; try contradiction.
      destruct (mem k0 (liveSessions (world s0))); [ | contradiction ].
      destruct Hin as [[= <- <-] | []]. rewrite app_nil_r.
      split; [ reflexivity | split ].
      * eexists. apply btoa_length_bytes.
      * simpl in En. unfold mem in En. apply existsb_exists in En.
        destruct En as [x [Hx E]]. apply Nat.eqb_eq in E. now subst.
  - intros k media [].
Qed.

Lemma sent_frames_come_from_captures_witness :
  mimeType {| data := "/38="; mimeType := "audio/pcm;rate=16000" |}
  = "audio/pcm;rate=16000".
Proof.
  destruct (@sent_frames_come_from_captures
              [ClickNext; ClickMicToggle; Open 0; ConnectResolved 0; MicGranted 0;
               AudioProcess 0 [Finite 1]]
              (fold_left (fun s e => handle e s)
                 [ClickNext; ClickMicToggle; Open 0; ConnectResolved 0; MicGranted 0;
                  AudioProcess 0 [Finite 1]] initialState)
              0 {| data := "/38="; mimeType := "audio/pcm;rate=16000" |})
    as (H & _); [ vm_compute; reflexivity | vm_compute; left; reflexivity | ].
  exact H.
Defined.

Lemma handle_isLiveActive (e : Event) (s : State) :
  isLiveActive (cells (handle e s)) = true ->
  isLiveActive (cells s) = true \/ exists k, e = Open k.
Proof.
  destruct e; try (right; eexists; reflexivity);
    handler_cases; intro H; try discriminate H; left; congruence.
Qed.

(** X19.  In every state the component can reach in which
    [isLiveActive] is true - the live panel is shown - the transcript begins
    with the banner: the panel is never shown with an empty transcript or
    with the text of an earlier session alone. *)
Theorem live_panel_shows_banner (es : list Event) (s : State) :
  run es initialState = Some s ->
  isLiveActive (cells s) = true ->
  exists rest,
    liveTranscript (cells s) = ("Connected! Start speaking..." ++ rest)%string.
Proof.
  apply (@run_invariant
           (fun s =>
              isLiveActive (cells s) = true ->
              exists rest, liveTranscript (cells s) = (banner ++ rest)%string)).
  - intros e s0 _ IH A.
    apply handle_isLiveActive in A. destruct A as [A | [k ->]].
    + destruct (IH A) as [rest E]. rewrite handle_transcript.
      destruct e; try (exists rest; exact E).
      * exists EmptyString. reflexivity.
      * rewrite onmessage_transcript, E, string_app_assoc. eexists. reflexivity.
    + exists EmptyString. reflexivity.
  - discriminate.
Qed.

Lemma live_panel_shows_banner_witness :
  exists rest,
    liveTranscript
      (cells (fold_left (fun s e => handle e s)
                [ClickNext; ClickMicToggle; Message 0 (textMessage "early");
                 Open 0; Message 0 (textMessage "Hi")] initialState))
    = ("Connected! Start speaking..." ++ rest)%string.
Proof.
  apply (@live_panel_shows_banner
           [ClickNext; ClickMicToggle; Message 0 (textMessage "early");
            Open 0; Message 0 (textMessage "Hi")]);
    vm_compute; reflexivity.
Defined.
